(** * Colour scraper and colour reader: a shallow embedding

    The repository holds two notebooks.

    - [create-sample-json-gz-files.ipynb] scrapes colour pages, extracts a
      hex string and an RGB triple from every paragraph with two regular
      expressions, tags every colour with an identifier and writes one
      gzip-compressed JSON file per colour family.
    - [python-process-s3-files.ipynb] lists the keys of a bucket, downloads,
      decompresses and parses every object, builds [ColourId] records and
      filters them with two predicates, once as a [seq] pipeline and once
      as a pair of nested [for] loops.

    Python values are embedded as the inductive type [pyval], exceptions as
    the result type [res], generators as the sequence of values they yield
    together with the way they stop.  Text is a sequence of code points
    below 256 (Rocq's [ascii]); the services the notebooks call (HTTP,
    HTML parsing, gzip, the JSON text format, the object store, the random
    identifiers) are parameters. *)

From Stdlib Require Import List ZArith NArith Ascii String Bool Lia Arith.
From Stdlib Require Import DecimalString.
Import ListNotations.

Set Implicit Arguments.
Set Warnings "-register-all".

(** * Exceptions *)

Inductive exn : Type :=
| TypeError
| KeyError
| IndexError
| ValueError
| AttributeError
| OSError
| ServiceError (tag : nat).   (* raised by a remote service *)

Inductive res (A : Type) : Type :=
| Return (a : A)
| Raise (e : exn).

Arguments Return {A} a.
Arguments Raise {A} e.

Definition bind {A B : Type} (x : res A) (f : A -> res B) : res B :=
  match x with
  | Return a => f a
  | Raise e => Raise e
  end.

Declare Scope py_scope.
Delimit Scope py_scope with py.
Notation "x <- c ;; k" := (bind c (fun x => k))
  (at level 61, c at next level, right associativity) : py_scope.
Open Scope py_scope.

(** * Python values

    The values the notebooks handle: what [json.loads] can return on a
    document without fractional numbers, and tuples.  A dict is kept as the
    list of its items in insertion order; its keys are strings, as the keys
    of a JSON object and of [toJSON]'s dict are. *)

Inductive pyval : Type :=
| PyNone
| PyBool (b : bool)
| PyInt (n : Z)
| PyStr (s : string)
| PyList (items : list pyval)
| PyTuple (items : list pyval)
| PyDict (items : list (string * pyval)).

Fixpoint lookup {A : Type} (k : string) (d : list (string * A)) : option A :=
  match d with
  | [] => None
  | (k', v) :: d' => if String.eqb k k' then Some v else lookup k d'
  end.

(** [d[k] = v]: an existing key keeps its place, a new one goes last. *)
Fixpoint dict_set {A : Type} (d : list (string * A)) (k : string) (v : A)
  : list (string * A) :=
  match d with
  | [] => [(k, v)]
  | (k', v') :: d' =>
      if String.eqb k k' then (k', v) :: d' else (k', v') :: dict_set d' k v
  end.

(** [bool] is a subclass of [int]. *)
Definition as_number (v : pyval) : option Z :=
  match v with
  | PyInt n => Some n
  | PyBool b => Some (Z.b2z b)
  | _ => None
  end.

(** [v[k]] for a string [k]. *)
Definition getitem_str (v : pyval) (k : string) : res pyval :=
  match v with
  | PyDict d =>
      match lookup k d with
      | Some x => Return x
      | None => Raise KeyError
      end
  | _ => Raise TypeError
  end.

Definition char_at (s : string) (i : nat) : option pyval :=
  match String.get i s with
  | Some c => Some (PyStr (String c EmptyString))
  | None => None
  end.

(** [v[i]] for an integer [i]; a negative index counts from the end. *)
Definition getitem_int (v : pyval) (i : Z) : res pyval :=
  let index (len : nat) : option nat :=
    if (0 <=? i)%Z then Some (Z.to_nat i)
    else if (0 <=? i + Z.of_nat len)%Z then Some (Z.to_nat (i + Z.of_nat len))
         else None in
  let pick (len : nat) (at_ : nat -> option pyval) : res pyval :=
    match index len with
    | Some n => match at_ n with Some x => Return x | None => Raise IndexError end
    | None => Raise IndexError
    end in
  match v with
  | PyList l | PyTuple l => pick (List.length l) (nth_error l)
  | PyStr s => pick (String.length s) (char_at s)
  | PyDict _ => Raise KeyError
  | PyNone | PyBool _ | PyInt _ => Raise TypeError
  end.

(** [v.get(k, default)] *)
Definition py_get (v : pyval) (k : string) (default : pyval) : res pyval :=
  match v with
  | PyDict d =>
      match lookup k d with
      | Some x => Return x
      | None => Return default
      end
  | _ => Raise AttributeError
  end.

Fixpoint ends_with (l suffix : list ascii) : bool :=
  if (if list_eq_dec ascii_dec l suffix then true else false) then true
  else match l with
       | [] => false
       | _ :: l' => ends_with l' suffix
       end.

(** [v.endswith(suffix)] *)
Definition py_endswith (v : pyval) (suffix : string) : res bool :=
  match v with
  | PyStr s =>
      Return (ends_with (list_ascii_of_string s) (list_ascii_of_string suffix))
  | _ => Raise AttributeError
  end.

Definition chars (s : string) : list pyval :=
  map (fun c => PyStr (String c EmptyString)) (list_ascii_of_string s).

(** [isinstance(v, collections.abc.Iterable)] *)
Definition is_iterable (v : pyval) : bool :=
  match v with
  | PyStr _ | PyList _ | PyTuple _ | PyDict _ => true
  | PyNone | PyBool _ | PyInt _ => false
  end.

(** The values [for x in v] runs through. *)
Definition py_iter (v : pyval) : res (list pyval) :=
  match v with
  | PyList l | PyTuple l => Return l
  | PyStr s => Return (chars s)
  | PyDict d => Return (map (fun kv => PyStr (fst kv)) d)
  | PyNone | PyBool _ | PyInt _ => Raise TypeError
  end.

Section Lexicographic.
Variables (eqv : pyval -> pyval -> bool) (ord : pyval -> pyval -> res bool).
Variable is_gt : bool.

(** [==] of two sequences: same length and equal items. *)
Fixpoint seq_eq (l m : list pyval) : bool :=
  match l, m with
  | [], [] => true
  | x :: l', y :: m' => eqv x y && seq_eq l' m'
  | _, _ => false
  end.

(** [<] and [>] of two sequences: the first pair of unequal items
    decides; without one, the lengths do. *)
Fixpoint seq_order (l m : list pyval) : res bool :=
  match l, m with
  | [], [] => Return false
  | [], _ :: _ => Return (negb is_gt)
  | _ :: _, [] => Return is_gt
  | x :: l', y :: m' => if eqv x y then seq_order l' m' else ord x y
  end.
End Lexicographic.

Fixpoint py_eq (a b : pyval) {struct a} : bool :=
  match a with
  | PyNone => match b with PyNone => true | _ => false end
  | PyStr s => match b with PyStr t => String.eqb s t | _ => false end
  | PyList l => match b with PyList m => seq_eq py_eq l m | _ => false end
  | PyTuple l => match b with PyTuple m => seq_eq py_eq l m | _ => false end
  | PyDict d =>
      match b with
      | PyDict e =>
          Nat.eqb (List.length d) (List.length e)
          && forallb (fun kv : string * pyval =>
                        let '(k, v) := kv in
                        match lookup k e with
                        | Some v' => py_eq v v'
                        | None => false
                        end) d
      | _ => false
      end
  | PyBool x =>
      match as_number b with Some y => Z.eqb (Z.b2z x) y | None => false end
  | PyInt x =>
      match as_number b with Some y => Z.eqb x y | None => false end
  end.

Definition str_order (gt : bool) (s t : string) : bool :=
  match String.compare s t with
  | Lt => negb gt
  | Gt => gt
  | Eq => false
  end.

(** [a > b] when [gt], [a < b] otherwise. *)
Fixpoint py_order (gt : bool) (a b : pyval) {struct a} : res bool :=
  match a with
  | PyStr s =>
      match b with PyStr t => Return (str_order gt s t) | _ => Raise TypeError end
  | PyList l =>
      match b with PyList m => seq_order py_eq (py_order gt) gt l m | _ => Raise TypeError end
  | PyTuple l =>
      match b with PyTuple m => seq_order py_eq (py_order gt) gt l m | _ => Raise TypeError end
  | PyBool _ | PyInt _ =>
      match as_number a, as_number b with
      | Some x, Some y => Return (if gt then (y <? x)%Z else (x <? y)%Z)
      | _, _ => Raise TypeError
      end
  | PyNone | PyDict _ => Raise TypeError
  end.

Definition py_gt (a b : pyval) : res bool := py_order true a b.
Definition py_lt (a b : pyval) : res bool := py_order false a b.


(** * JSON documents

    [json.dumps] first maps a value to a document (lists and tuples both
    become arrays) and then prints it; [json.loads] parses a document and
    maps it to a value (an array becomes a list, an object a dict in which
    a repeated key keeps its last value).  Numbers are the integers. *)

Inductive json : Type :=
| JNull
| JBool (b : bool)
| JNumber (n : Z)
| JString (s : string)
| JArray (items : list json)
| JObject (members : list (string * json)).

Fixpoint json_encode (v : pyval) : json :=
  match v with
  | PyNone => JNull
  | PyBool b => JBool b
  | PyInt n => JNumber n
  | PyStr s => JString s
  | PyList l | PyTuple l => JArray (map json_encode l)
  | PyDict d =>
      JObject (map (fun kv : string * pyval =>
                      let '(k, x) := kv in (k, json_encode x)) d)
  end.

Definition dict_of_pairs (pairs : list (string * pyval)) : list (string * pyval) :=
  fold_left (fun d kv => dict_set d (fst kv) (snd kv)) pairs [].

Fixpoint json_decode (j : json) : pyval :=
  match j with
  | JNull => PyNone
  | JBool b => PyBool b
  | JNumber n => PyInt n
  | JString s => PyStr s
  | JArray l => PyList (map json_decode l)
  | JObject ms =>
      PyDict (dict_of_pairs
                (map (fun kv : string * json =>
                        let '(k, x) := kv in (k, json_decode x)) ms))
  end.

(** * The services behind the library calls

    The text a document is printed as, the bytes it is encoded and
    compressed to, and the functions between them are those of the Python
    libraries; the notebooks only pass these values along. *)

Class Services : Type := {
  text : Type;
  bytes : Type;
  json_format : json -> nat -> text;      (* the printer, with its indent *)
  utf8_encode : text -> bytes;            (* str.encode("utf-8") *)
  json_parse : bytes -> res json;         (* the parser, on UTF-8 bytes *)
  gzip_compress : bytes -> bytes;         (* what a GzipFile write stores *)
  gzip_decompress : bytes -> res bytes    (* gzip.decompress *)
}.

(** What the libraries promise: decompressing undoes compressing and
    parsing undoes printing. *)
Class ServicesLaws (S : Services) : Prop := {
  gzip_decompress_compress :
    forall b : bytes, gzip_decompress (gzip_compress b) = Return b;
  json_parse_format :
    forall (j : json) (indent : nat),
      json_parse (utf8_encode (json_format j indent)) = Return j
}.

Section Json.
Context {S : Services}.

(** [json.dumps(data, indent=indent)] *)
Definition json_dumps (data : pyval) (indent : nat) : text :=
  json_format (json_encode data) indent.

(** [json.loads(b)] *)
Definition json_loads (b : bytes) : res pyval :=
  j <- json_parse b ;; Return (json_decode j).
End Json.

(** * Generators and the [seq] pipeline

    A generator is observed through the values it yields, in order, and
    the way it stops: exhausted, or raising.  Every stage of a [seq]
    pipeline is lazy: it asks its source for one value at a time, so a
    stage that raises on a value stops the pipeline there, whatever the
    source would have done next. *)

Record gen (A : Type) : Type := mkgen {
  yielded : list A;
  stop : option exn
}.

Definition exhausted {A : Type} : gen A := mkgen [] None.
Definition raising {A : Type} (e : exn) : gen A := mkgen [] (Some e).

Definition yield {A : Type} (a : A) (g : gen A) : gen A :=
  mkgen (a :: yielded g) (stop g).

Definition yield_from {A : Type} (l : list A) (g : gen A) : gen A :=
  mkgen (l ++ yielded g) (stop g).

Definition stopping {A : Type} (o : option exn) : gen A := mkgen [] o.

(** A step of a generator body that may raise. *)
Definition gen_try {A B : Type} (x : res B) (k : B -> gen A) : gen A :=
  match x with
  | Return b => k b
  | Raise e => raising e
  end.

Notation "x <~ c ;; k" := (gen_try c (fun x => k))
  (at level 61, c at next level, right associativity) : py_scope.

Module Seq.

(** [seq(g)] *)
Definition seq {A : Type} (g : gen A) : gen A := g.

Definition map {A B : Type} (f : A -> res B) (g : gen A) : gen B :=
  (fix go (l : list A) : gen B :=
     match l with
     | [] => stopping (stop g)
     | x :: l' => y <~ f x ;; yield y (go l')
     end) (yielded g).

(** [map] with a function that draws from a state, such as the random
    source: the state is drawn from once for every value passed on. *)
Definition map_st {A B St : Type} (f : A -> St -> B * St) (g : gen A) (s : St)
  : gen B * St :=
  (fix go (l : list A) (s : St) : gen B * St :=
     match l with
     | [] => (stopping (stop g), s)
     | x :: l' =>
         let '(y, s1) := f x s in
         let '(rest, s2) := go l' s1 in (yield y rest, s2)
     end) (yielded g) s.

Definition filter {A : Type} (p : A -> res bool) (g : gen A) : gen A :=
  (fix go (l : list A) : gen A :=
     match l with
     | [] => stopping (stop g)
     | x :: l' => keep <~ p x ;; if keep : bool then yield x (go l') else go l'
     end) (yielded g).

(** [flatten] replaces an element that is an instance of [Iterable] by
    its items, one after the other, and passes any other element on as it
    is. *)
Definition flatten (g : gen pyval) : gen pyval :=
  (fix go (l : list pyval) : gen pyval :=
     match l with
     | [] => stopping (stop g)
     | x :: l' =>
         if is_iterable x
         then items <~ py_iter x ;; yield_from items (go l')
         else yield x (go l')
     end) (yielded g).

Definition to_list {A : Type} (g : gen A) : res (list A) :=
  match stop g with
  | None => Return (yielded g)
  | Some e => Raise e
  end.

End Seq.

(** [for x in g: s = body x s], from the state [s]. *)
Definition for_gen {A St : Type} (g : gen A) (body : A -> St -> res St) (s : St)
  : res St :=
  (fix go (l : list A) (s : St) : res St :=
     match l with
     | [] => match stop g with None => Return s | Some e => Raise e end
     | x :: l' => s' <- body x s ;; go l' s'
     end) (yielded g) s.

(** [for x in v: s = body x s] over a value. *)
Definition for_in {St : Type} (v : pyval) (body : pyval -> St -> res St) (s : St)
  : res St :=
  items <- py_iter v ;; for_gen (mkgen items None) body s.

(** * The domain model

    Both notebooks declare [ColourId] with the same five fields; a
    dataclass does not check the annotations of its fields, so a field
    holds any value. *)

Module Colour.

Record t : Type := make { name : pyval; base : pyval; hex : pyval; rgb : pyval }.

End Colour.

Module ColourId.
Record t : Type := make {
  id : pyval; name : pyval; base : pyval; hex : pyval; rgb : pyval
}.

Definition toJSON (self : t) : pyval :=
  PyDict [("id", id self); ("name", name self); ("base", base self);
          ("hex", hex self); ("rgb", rgb self)]%string.
End ColourId.

(** * Regular expressions

    The fragment of Python's [re] the two patterns are written in: single
    character atoms, greedy bounded and unbounded repetition of an atom,
    concatenation and capturing groups.  The matcher is a backtracking
    matcher presented as a list of successes: the results are listed in the
    order the engine tries them, and the engine keeps the first. *)

Module Re.

Definition code (c : ascii) : N := N_of_ascii c.

Definition between (lo hi : N) (c : ascii) : bool :=
  ((lo <=? code c) && (code c <=? hi))%N.

(** Simple lower-case mapping of the code points below 256:
    [A-Z] and the accented capitals [U+00C0]-[U+00DE] except the
    multiplication sign. *)
Definition to_lower (c : ascii) : ascii :=
  if between 65 90 c then ascii_of_N (code c + 32)
  else if between 192 222 c && negb (code c =? 215)%N
       then ascii_of_N (code c + 32)
       else c.

Inductive atom : Type :=
| Lit (c : ascii)                          (* an ordinary character *)
| CharSet (ranges : list (ascii * ascii))  (* [x-y...] *)
| Digit                                    (* \d *)
| Space.                                   (* \s *)

Inductive regex : Type :=
| Atom (a : atom)
| Rep (a : atom) (lo : nat) (hi : option nat)  (* a{lo,hi}, a* is a{0,} *)
| Cat (r1 r2 : regex)
| Group (r : regex).                           (* ( r ) *)

Definition in_range (c : ascii) (r : ascii * ascii) : bool :=
  between (code (fst r)) (code (snd r)) c.

Definition all_chars : list ascii :=
  map (fun n => ascii_of_nat n) (seq 0 256).

(** Under IGNORECASE a set matches [c] when some member of the set has the
    lower-case form of [c]. *)
Definition ci_in_ranges (ranges : list (ascii * ascii)) (c : ascii) : bool :=
  existsb (fun x => existsb (in_range x) ranges
                    && (code (to_lower x) =? code (to_lower c))%N)
          all_chars.

(** [\d] on str patterns is the Unicode decimal digits, below 256 these are
    [0-9]; [\s] is Unicode white space, below 256 these are TAB to CR,
    FS to US, the space, NEL and the no-break space. *)
Definition is_digit (c : ascii) : bool := between 48 57 c.

Definition is_space (c : ascii) : bool :=
  between 9 13 c || between 28 32 c
  || (code c =? 133)%N || (code c =? 160)%N.

Definition atom_match (ignorecase : bool) (a : atom) (c : ascii) : bool :=
  match a with
  | Lit l =>
      if ignorecase then (code (to_lower c) =? code (to_lower l))%N
      else (code c =? code l)%N
  | CharSet ranges =>
      if ignorecase then ci_in_ranges ranges c
      else existsb (in_range c) ranges
  | Digit => is_digit c
  | Space => is_space c
  end.

(** Length of the longest prefix of [s] whose characters satisfy [p]. *)
Fixpoint run_len (p : ascii -> bool) (s : list ascii) : nat :=
  match s with
  | c :: s' => if p c then S (run_len p s') else 0
  | [] => 0
  end.

(** [counts lo hi] is [hi; hi-1; ...; lo], the order in which a greedy
    repetition tries its counts. *)
Definition counts (lo hi : nat) : list nat := rev (seq lo (S hi - lo)).

(** consumed text, captured groups (by opening parenthesis), rest *)
Definition success : Type := (list ascii * list (list ascii) * list ascii)%type.

Fixpoint matches (ic : bool) (r : regex) (s : list ascii) : list success :=
  match r with
  | Atom a =>
      match s with
      | c :: s' => if atom_match ic a c then [([c], [], s')] else []
      | [] => []
      end
  | Rep a lo hi =>
      let n := run_len (atom_match ic a) s in
      let top := match hi with Some h => Nat.min h n | None => n end in
      map (fun k => (firstn k s, [], skipn k s)) (counts lo top)
  | Cat r1 r2 =>
      flat_map
        (fun x1 : success =>
           let '(w1, g1, s1) := x1 in
           map (fun x2 : success =>
                  let '(w2, g2, s2) := x2 in (w1 ++ w2, g1 ++ g2, s2))
               (matches ic r2 s1))
        (matches ic r1 s)
  | Group r1 =>
      map (fun x : success => let '(w, g, s') := x in (w, w :: g, s'))
          (matches ic r1 s)
  end.

(** The Match object: where the match starts, the matched text and the
    captured groups. *)
Record re_match : Type := {
  m_start : nat;
  m_whole : list ascii;
  m_groups : list (list ascii)
}.

(** [re.search]: the first position, from the left, at which the pattern
    matches; the end of the text is a position too. *)
Fixpoint search_from (ic : bool) (r : regex) (pos : nat) (s : list ascii)
  : option re_match :=
  match hd_error (matches ic r s) with
  | Some (w, g, _) => Some {| m_start := pos; m_whole := w; m_groups := g |}
  | None =>
      match s with
      | [] => None
      | _ :: s' => search_from ic r (S pos) s'
      end
  end.

Definition IGNORECASE : bool := true.

Definition search (r : regex) (text : string) (flags : bool) : option re_match :=
  search_from flags r 0 (list_ascii_of_string text).

(** [match.group(n)]: group 0 is the whole match; a group the pattern does
    not have raises IndexError. *)
Definition group (m : re_match) (n : nat) : res string :=
  match n with
  | 0 => Return (string_of_list_ascii (m_whole m))
  | S k =>
      match nth_error (m_groups m) k with
      | Some g => Return (string_of_list_ascii g)
      | None => Raise IndexError
      end
  end.

End Re.

(** * The scraper notebook *)

Module Scraper.

Import Re.
Local Open Scope string_scope.

(** [r"#[0-9a-fA-F]{6}"] *)
Definition hex_colour_pattern : regex :=
  Cat (Atom (Lit "#"))
      (Rep (CharSet [("0", "9"); ("a", "f"); ("A", "F")]%char) 6 (Some 6)).

Definition extract_hex_colour (text : string) : res (option string) :=
  match search hex_colour_pattern text IGNORECASE with
  | Some m => h <- group m 0 ;; Return (Some h)
  | None => Return None
  end.

(** [int(s)] on a run of ASCII digits.  The builtin also accepts a sign,
    surrounding white space and underscores; a string with any character
    other than a digit is outside the digit runs modelled here and is
    reported as ValueError, as the empty string is. *)
Definition digit_value (c : ascii) : Z := Z.of_N (code c) - 48.

Definition decimal (l : list ascii) : Z :=
  fold_left (fun acc c => 10 * acc + digit_value c)%Z l 0%Z.

Definition int (s : string) : res Z :=
  let l := list_ascii_of_string s in
  match l with
  | [] => Raise ValueError
  | _ => if forallb is_digit l then Return (decimal l) else Raise ValueError
  end.

(** [r"rgb\s*(\d{1,3}),\s*(\d{1,3}),\s*(\d{1,3})"] *)
Definition rgb_colour_pattern : regex :=
  Cat (Atom (Lit "r")) (Cat (Atom (Lit "g")) (Cat (Atom (Lit "b"))
  (Cat (Rep Space 0 None) (Cat (Group (Rep Digit 1 (Some 3)))
  (Cat (Atom (Lit ","))
  (Cat (Rep Space 0 None) (Cat (Group (Rep Digit 1 (Some 3)))
  (Cat (Atom (Lit ","))
  (Cat (Rep Space 0 None) (Group (Rep Digit 1 (Some 3)))))))))))).

Definition extract_rgb_colour (text : string) : res (option (Z * Z * Z)) :=
  match search rgb_colour_pattern text IGNORECASE with
  | None => Return None
  | Some m =>
      red <- (g <- group m 1 ;; int g) ;;
      green <- (g <- group m 2 ;; int g) ;;
      blue <- (g <- group m 3 ;; int g) ;;
      Return (Some (red, green, blue))
  end.

(** What [soup.find_all("p", class_="has-white-color")] returns of a
    paragraph: the text of its first [strong] element, when it has one,
    and its own text. *)
Record paragraph : Type := {
  strong : option string;
  p_text : string
}.

Section Main.
Context {S : Services}.

(** [requests.get] followed by the HTML parser and [find_all]. *)
Variable fetch_paragraphs : string -> res (list paragraph).

(** The random source [uuid.uuid4] draws from. *)
Variable rng : Type.
Variable uuid4 : rng -> string * rng.

Definition add_id_to_colour (colour : Colour.t) (r : rng) : ColourId.t * rng :=
  let '(id, r') := uuid4 r in
  (ColourId.make (PyStr id) (Colour.name colour) (Colour.base colour)
                 (Colour.hex colour) (Colour.rgb colour), r').

Definition download_colour_data (base_colour url : string) : gen Colour.t :=
  paragraphs <~ fetch_paragraphs url ;;
  (fix loop (ps : list paragraph) : gen Colour.t :=
     match ps with
     | [] => exhausted
     | paragraph :: rest =>
         match strong paragraph with
         | None => loop rest
         | Some name =>
             hex <~ extract_hex_colour (p_text paragraph) ;;
             rgb <~ extract_rgb_colour (p_text paragraph) ;;
             match hex, rgb with
             | Some h, Some (r, g, b) =>
                 yield (Colour.make (PyStr name) (PyStr base_colour) (PyStr h)
                                    (PyTuple [PyInt r; PyInt g; PyInt b]))
                       (loop rest)
             | _, _ => loop rest
             end
         end
     end) paragraphs.

Definition files : Type := list (string * bytes).

Definition save_to_json_gz_file (file_name : string) (data : pyval) (fs : files)
  : files :=
  let json_str := json_dumps data 2 in
  let json_bytes := utf8_encode json_str in
  dict_set fs file_name (gzip_compress json_bytes).

Definition create_colours_url (colour_name : string) : string :=
  "https://www.colorsexplained.com/shades-of-" ++ colour_name ++ "-color-names/".

Definition colour_names : list string :=
  ["black"; "blue"; "gray"; "green"; "orange"; "pink"; "purple"; "red";
   "yellow"].

Record world : Type := { random : rng; disk : files }.

(** One turn of the main loop. *)
Definition process_colour (colour : string) (w : world) : res world :=
  let url := create_colours_url colour in
  let colours := download_colour_data colour url in
  let '(with_ids, r') := Seq.map_st add_id_to_colour (Seq.seq colours) (random w) in
  colours_with_ids_json <-
    Seq.to_list (Seq.map (fun c => Return (ColourId.toJSON c)) with_ids) ;;
  let num_found_colours := List.length colours_with_ids_json in
  if Nat.eqb num_found_colours 0
  then Return {| random := r'; disk := disk w |}
  else
    let output_file_name := "./small-files/" ++ colour ++ ".json.gz" in
    Return {| random := r';
              disk := save_to_json_gz_file output_file_name
                        (PyList colours_with_ids_json) (disk w) |}.

Definition main (w : world) : res world :=
  for_gen (mkgen colour_names None) process_colour w.
End Main.

End Scraper.

(** * The reader notebook *)

Module Reader.

Local Open Scope string_scope.

Definition BUCKET_NAME : string := "mccarter-blog".
Definition FILE_PREFIX : string := "2023-02-18/small-files/".

Section WithServices.
Context {S : Services}.

(** The two calls made on the boto3 client: the listing, and
    [get_object] followed by the read of its body. *)
Record s3_client : Type := {
  list_objects_v2 : string -> string -> res pyval;
  get_object_body : string -> string -> res bytes
}.

(** The [for] loop of [list_s3_bucket_file_keys]. *)
Fixpoint list_keys_loop (objs : list pyval) : gen string :=
  match objs with
  | [] => exhausted
  | obj :: rest =>
      key <~ py_get obj "Key" PyNone ;;
      is_dir <~ py_endswith key "/" ;;
      if is_dir : bool then list_keys_loop rest
      else match key with
           | PyStr k => yield k (list_keys_loop rest)
           | _ => raising AttributeError
           end
  end.

Definition list_s3_bucket_file_keys (s3 : s3_client) (bucket_name prefix : string)
  : gen string :=
  response <~ list_objects_v2 s3 bucket_name prefix ;;
  contents <~ py_get response "Contents" (PyList []) ;;
  objs <~ py_iter contents ;;
  list_keys_loop objs.

Definition download_s3_file (s3 : s3_client) (bucket_name key : string)
  : res bytes :=
  get_object_body s3 bucket_name key.

Definition read_binary_file (fs : list (string * bytes)) (file_name : string)
  : res bytes :=
  match lookup file_name fs with
  | Some content => Return content
  | None => Raise OSError
  end.

Definition is_colour_reddish (colour : ColourId.t) : res bool :=
  r0 <- getitem_int (ColourId.rgb colour) 0 ;;
  r1 <- getitem_int (ColourId.rgb colour) 1 ;;
  c1 <- py_gt r0 r1 ;;
  if c1 : bool then
    r0 <- getitem_int (ColourId.rgb colour) 0 ;;
    r2 <- getitem_int (ColourId.rgb colour) 2 ;;
    py_gt r0 r2
  else Return false.

Definition is_colour_muted (colour : ColourId.t) : res bool :=
  r0 <- getitem_int (ColourId.rgb colour) 0 ;;
  c0 <- py_lt r0 (PyInt 128) ;;
  if c0 : bool then
    r1 <- getitem_int (ColourId.rgb colour) 1 ;;
    c1 <- py_lt r1 (PyInt 128) ;;
    if c1 : bool then
      r2 <- getitem_int (ColourId.rgb colour) 2 ;;
      py_lt r2 (PyInt 128)
    else Return false
  else Return false.

Definition create_colour_from_json (data : pyval) : res ColourId.t :=
  id <- getitem_str data "id" ;;
  name <- getitem_str data "name" ;;
  base <- getitem_str data "base" ;;
  hex <- getitem_str data "hex" ;;
  rgb <- getitem_str data "rgb" ;;
  Return (ColourId.make id name base hex rgb).

(** The second data pipeline. *)
Definition result_pipeline (s3 : s3_client) : res (list ColourId.t) :=
  Seq.to_list
    (Seq.filter is_colour_muted
    (Seq.filter is_colour_reddish
    (Seq.map create_colour_from_json
    (Seq.flatten
    (Seq.map json_loads
    (Seq.map gzip_decompress
    (Seq.map (fun key => download_s3_file s3 BUCKET_NAME key)
    (Seq.seq (list_s3_bucket_file_keys s3 BUCKET_NAME FILE_PREFIX))))))))).

(** The usual imperative way. *)
Definition result_loop (s3 : s3_client) : res (list ColourId.t) :=
  for_gen (list_s3_bucket_file_keys s3 BUCKET_NAME FILE_PREFIX)
    (fun s3_key result =>
       downloaded_file_bytes <- download_s3_file s3 BUCKET_NAME s3_key ;;
       decompressed_text <- gzip_decompress downloaded_file_bytes ;;
       json_data <- json_loads decompressed_text ;;
       for_in json_data
         (fun colour_dict result =>
            colour <- create_colour_from_json colour_dict ;;
            reddish <- is_colour_reddish colour ;;
            if negb reddish then Return result
            else
              muted <- is_colour_muted colour ;;
              if negb muted then Return result
              else Return (result ++ [colour])%list)
         result)
    [].

(** The stages of the pipeline up to [flatten] and after it, and the
    bodies of the outer and of the inner loop, by name. *)
Definition pipeline_documents (s3 : s3_client) (g : gen string) : gen pyval :=
  Seq.flatten
    (Seq.map json_loads
       (Seq.map gzip_decompress
          (Seq.map (fun key => download_s3_file s3 BUCKET_NAME key) g))).

Definition pipeline_records (g : gen pyval) : gen ColourId.t :=
  Seq.filter is_colour_muted
    (Seq.filter is_colour_reddish (Seq.map create_colour_from_json g)).

Definition loop_inner (colour_dict : pyval) (result : list ColourId.t)
  : res (list ColourId.t) :=
  colour <- create_colour_from_json colour_dict ;;
  reddish <- is_colour_reddish colour ;;
  if negb reddish then Return result
  else
    muted <- is_colour_muted colour ;;
    if negb muted then Return result
    else Return (result ++ [colour])%list.

Definition loop_outer (s3 : s3_client) (s3_key : string) (result : list ColourId.t)
  : res (list ColourId.t) :=
  downloaded_file_bytes <- download_s3_file s3 BUCKET_NAME s3_key ;;
  decompressed_text <- gzip_decompress downloaded_file_bytes ;;
  json_data <- json_loads decompressed_text ;;
  for_in json_data loop_inner result.

(** Reading one stored file back into records, with the stages of the
    pipelines: decompress, parse, run through the items, build. *)
Definition read_colours (content : bytes) : res (list ColourId.t) :=
  Seq.to_list
    (Seq.map create_colour_from_json
    (Seq.flatten
    (Seq.map json_loads
    (Seq.map gzip_decompress
    (Seq.seq (mkgen [content] None)))))).
End WithServices.

End Reader.


(** * What a match is

    The declarative reading of the patterns: [Matched ic r w gs] says that
    the pattern [r] can match exactly the text [w], capturing the groups
    [gs].  The matcher lists these matches and no others, in the order of
    its preferences. *)

Module Spec.

Import Re.

Definition within (hi : option nat) (n : nat) : Prop :=
  match hi with
  | Some h => n <= h
  | None => True
  end.

Inductive Matched (ic : bool) : regex -> list ascii -> list (list ascii) -> Prop :=
| MAtom (a : atom) (c : ascii) :
    atom_match ic a c = true -> Matched ic (Atom a) [c] []
| MRep (a : atom) (lo : nat) (hi : option nat) (w : list ascii) :
    forallb (atom_match ic a) w = true ->
    lo <= List.length w -> within hi (List.length w) ->
    Matched ic (Rep a lo hi) w []
| MCat (r1 r2 : regex) (w1 w2 : list ascii) (g1 g2 : list (list ascii)) :
    Matched ic r1 w1 g1 -> Matched ic r2 w2 g2 ->
    Matched ic (Cat r1 r2) (w1 ++ w2) (g1 ++ g2)
| MGroup (r : regex) (w : list ascii) (g : list (list ascii)) :
    Matched ic r w g -> Matched ic (Group r) w (w :: g).

(** The pattern matches at the very start of [s]. *)
Definition matches_at_start (ic : bool) (r : regex) (s : list ascii) : Prop :=
  exists w gs rest, s = w ++ rest /\ Matched ic r w gs.

Definition is_hex_digit (c : ascii) : bool :=
  between 48 57 c || between 97 102 c || between 65 70 c.

(** ['#'] followed by exactly six hexadecimal digits. *)
Definition is_hex_colour (w : list ascii) : Prop :=
  exists ds, w = "#"%char :: ds /\ List.length ds = 6
             /\ forallb is_hex_digit ds = true.

Definition is_hex_colour_string (h : string) : Prop :=
  is_hex_colour (list_ascii_of_string h).

Definition one_of (a b : ascii) (c : ascii) : bool :=
  Ascii.eqb c a || Ascii.eqb c b.

(** One to three decimal digits. *)
Definition digit_group (d : list ascii) : Prop :=
  forallb is_digit d = true /\ 1 <= List.length d <= 3.

(** White space, possibly none. *)
Definition blank (ws : list ascii) : Prop := forallb is_space ws = true.

(** What the pattern of [extract_rgb_colour] matches: [rgb] in either
    case, white space or none, then three groups of one to three digits,
    the first two followed by a comma and white space or none. *)
Definition is_rgb_colour (w d1 d2 d3 : list ascii) : Prop :=
  exists c1 c2 c3 ws1 ws2 ws3,
    w = [c1; c2; c3] ++ ws1 ++ d1 ++ [","%char] ++ ws2 ++ d2
        ++ [","%char] ++ ws3 ++ d3
    /\ one_of "r" "R" c1 = true /\ one_of "g" "G" c2 = true
    /\ one_of "b" "B" c3 = true
    /\ blank ws1 /\ blank ws2 /\ blank ws3
    /\ digit_group d1 /\ digit_group d2 /\ digit_group d3.

(** The text does not go on with a digit. *)
Definition no_digit_ahead (rest : list ascii) : Prop :=
  match rest with
  | c :: _ => is_digit c = false
  | [] => True
  end.

Definition is_rgb_colour_string (w : string) : Prop :=
  exists d1 d2 d3, is_rgb_colour (list_ascii_of_string w) d1 d2 d3.

(** [w], followed by [post], is a match of the RGB pattern whose last
    group took all the digits it could, and whose groups read [r], [g],
    [b]. *)
Definition rgb_colour_reads (w post : string) (r g b : Z) : Prop :=
  exists d1 d2 d3,
    is_rgb_colour (list_ascii_of_string w) d1 d2 d3
    /\ (List.length d3 = 3 \/ no_digit_ahead (list_ascii_of_string post))
    /\ r = Scraper.decimal d1 /\ g = Scraper.decimal d2
    /\ b = Scraper.decimal d3.

(** The pattern as the specification words it: [rgb], one space, and
    three groups of one to three digits separated by commas. *)
Definition spec_rgb_pattern : regex :=
  Cat (Atom (Lit "r")) (Cat (Atom (Lit "g")) (Cat (Atom (Lit "b"))
  (Cat (Atom (Lit " ")) (Cat (Group (Rep Digit 1 (Some 3)))
  (Cat (Atom (Lit ","))
  (Cat (Group (Rep Digit 1 (Some 3)))
  (Cat (Atom (Lit ",")) (Group (Rep Digit 1 (Some 3)))))))))).

End Spec.

(** * Reading a record *)

Module RecordSpec.

(** The record holds the channels [r], [g], [b], as the tuple the scraper
    builds or as the list a JSON array is read as. *)
Definition has_channels (c : ColourId.t) (r g b : Z) : Prop :=
  ColourId.rgb c = PyTuple [PyInt r; PyInt g; PyInt b]
  \/ ColourId.rgb c = PyList [PyInt r; PyInt g; PyInt b].

(** A record of four strings and a tuple of three integers. *)
Definition plain_record (c : ColourId.t) (i n f h : string) (r g b : Z) : Prop :=
  c = ColourId.make (PyStr i) (PyStr n) (PyStr f) (PyStr h)
                    (PyTuple [PyInt r; PyInt g; PyInt b]).

Definition is_plain (c : ColourId.t) : Prop :=
  exists i n f h r g b, plain_record c i n f h r g b.

(** A record as the scraper builds it: a plain record of the family [f]
    whose hex string is a hex colour and whose channels are in
    [0, bound). *)
Definition scraped (f : string) (bound : Z) (c : ColourId.t) : Prop :=
  exists (i n h : string) (r g b : Z),
    plain_record c i n f h r g b
    /\ Spec.is_hex_colour_string h
    /\ (0 <= r < bound)%Z /\ (0 <= g < bound)%Z /\ (0 <= b < bound)%Z.

(** A colour as [download_colour_data] builds it, with the same
    conditions. *)
Definition scraped_colour (f : string) (bound : Z) (c : Colour.t) : Prop :=
  exists (n h : string) (r g b : Z),
    c = Colour.make (PyStr n) (PyStr f) (PyStr h)
                    (PyTuple [PyInt r; PyInt g; PyInt b])
    /\ Spec.is_hex_colour_string h
    /\ (0 <= r < bound)%Z /\ (0 <= g < bound)%Z /\ (0 <= b < bound)%Z.

(** What a tuple comes back as. *)
Definition tuple_as_list (v : pyval) : pyval :=
  match v with
  | PyTuple l => PyList l
  | _ => v
  end.

(** The record with its channels held in a list. *)
Definition as_read (c : ColourId.t) : ColourId.t :=
  ColourId.make (ColourId.id c) (ColourId.name c) (ColourId.base c)
                (ColourId.hex c) (tuple_as_list (ColourId.rgb c)).

End RecordSpec.

(** * Reference services and sample data

    An implementation of the services that keeps the document and its
    framing, and the data of the notebooks' own checks. *)

Module Ref.

Local Open Scope string_scope.

Inductive ref_bytes : Type :=
| Utf8 (j : json) (indent : nat)
| Gzipped (b : ref_bytes).

#[export] Instance services : Services := {|
  text := json * nat;
  bytes := ref_bytes;
  json_format := fun j indent => (j, indent);
  utf8_encode := fun t => Utf8 (fst t) (snd t);
  json_parse := fun b =>
    match b with
    | Utf8 j _ => Return j
    | Gzipped _ => Raise ValueError
    end;
  gzip_compress := Gzipped;
  gzip_decompress := fun b =>
    match b with
    | Gzipped b' => Return b'
    | Utf8 _ _ => Raise OSError
    end
|}.

Definition uuid4 (n : nat) : string * nat :=
  ("uuid-" ++ NilEmpty.string_of_uint (Nat.to_uint n), S n).

Definition carmine : ColourId.t :=
  ColourId.make (PyStr "uuid-0") (PyStr "Carmine") (PyStr "red")
                (PyStr "#960018") (PyTuple [PyInt 150; PyInt 0; PyInt 24]).

Definition overblue : ColourId.t :=
  ColourId.make (PyStr "uuid-1") (PyStr "Overblue") (PyStr "red")
                (PyStr "#0102FF") (PyTuple [PyInt 1; PyInt 2; PyInt 342]).

(** The first record the reader notebook prints. *)
Definition asphalt : ColourId.t :=
  ColourId.make (PyStr "b6907772-f286-4df1-b699-1d9dee8fdbb2") (PyStr "Asphalt")
                (PyStr "black") (PyStr "#0C0404")
                (PyList [PyInt 12; PyInt 4; PyInt 4]).

(** A page with a colour, a paragraph without a name, one without an RGB
    triple and one whose blue channel is 342. *)
Definition page : list Scraper.paragraph :=
  [ {| Scraper.strong := Some "Carmine";
       Scraper.p_text := "Carmine Hex #960018 RGB 150, 0, 24" |};
    {| Scraper.strong := None;
       Scraper.p_text := "Hex #8D021F RGB 141, 2, 31" |};
    {| Scraper.strong := Some "Nameless";
       Scraper.p_text := "Hex #9F1D35" |};
    {| Scraper.strong := Some "Overblue";
       Scraper.p_text := "Overblue Hex #0102FF RGB 1, 2, 342" |} ].

Definition fetch_paragraphs (url : string) : res (list Scraper.paragraph) :=
  Return page.

Definition empty_world : Scraper.world nat :=
  {| Scraper.random := 0; Scraper.disk := [] |}.

(** A listing with a directory marker and the three files the reader
    notebook checks for. *)
Definition listing : pyval :=
  PyDict [("Contents",
           PyList [PyDict [("Key", PyStr "2023-02-18/small-files/")];
                   PyDict [("Key", PyStr "2023-02-18/small-files/black.json.gz")];
                   PyDict [("Key", PyStr "2023-02-18/small-files/blue.json.gz")];
                   PyDict [("Key", PyStr "2023-02-18/small-files/gray.json.gz")]])].

Definition s3 : Reader.s3_client :=
  {| Reader.list_objects_v2 := fun _ _ => Return listing;
     Reader.get_object_body := fun _ _ => Raise (ServiceError 404) |}.

End Ref.

(** * The rest of the notebooks

    The first data pipeline, over local files, and [traditional_approach],
    the single function the reader notebook starts from. *)

Module Notebook.

Import Reader.
Local Open Scope string_scope.

Section WithServices.
Context {S : Services}.

Definition test_files : list string :=
  ["./small-files/purple.json.gz"; "./small-files/gray.json.gz";
   "./small-files/green.json.gz"].

(** The first data pipeline, over the files [files] of the disk [fs]. *)
Definition local_pipeline (fs : list (string * bytes)) (files : list string)
  : res (list pyval) :=
  Seq.to_list
    (Seq.flatten
    (Seq.map json_loads
    (Seq.map gzip_decompress
    (Seq.map (read_binary_file fs)
    (Seq.seq (mkgen files None)))))).

Definition result_local (fs : list (string * bytes)) : res (list pyval) :=
  local_pipeline fs test_files.

(** What [traditional_approach] prints: the lines, in order. *)
Inductive line : Type :=
| Downloading (key : string)   (* print("Downloading file: ", key) *)
| Entry (entry : pyval).       (* print(entry) *)

(** The inner loop of [traditional_approach], followed by what the outer
    loop goes on with. *)
Fixpoint print_reddish (entries : list pyval) (next : gen line) : gen line :=
  match entries with
  | [] => next
  | entry :: rest =>
      rgb <~ getitem_str entry "rgb" ;;
      is_reddish <~ (r0 <- getitem_int rgb 0 ;;
                     r1 <- getitem_int rgb 1 ;;
                     c1 <- py_gt r0 r1 ;;
                     if c1 : bool then
                       r0 <- getitem_int rgb 0 ;;
                       r2 <- getitem_int rgb 2 ;;
                       py_gt r0 r2
                     else Return false) ;;
      if is_reddish : bool then yield (Entry entry) (print_reddish rest next)
      else print_reddish rest next
  end.

(** The outer loop of [traditional_approach]. *)
Fixpoint traditional_loop (s3 : s3_client) (bucket_name : string)
         (objs : list pyval) : gen line :=
  match objs with
  | [] => exhausted
  | obj :: rest =>
      key <~ py_get obj "Key" PyNone ;;
      is_dir <~ py_endswith key "/" ;;
      if is_dir : bool then traditional_loop s3 bucket_name rest
      else match key with
           | PyStr k =>
               yield (Downloading k)
                 (content <~ get_object_body s3 bucket_name k ;;
                  decompressed <~ gzip_decompress content ;;
                  json_data <~ json_loads decompressed ;;
                  entries <~ py_iter json_data ;;
                  print_reddish entries (traditional_loop s3 bucket_name rest))
           | _ => raising AttributeError
           end
  end.

(** The lines a call prints, and the way the call ends. *)
Definition traditional_approach (s3 : s3_client) (bucket_name prefix : string)
  : gen line :=
  s3_response <~ list_objects_v2 s3 bucket_name prefix ;;
  contents <~ py_get s3_response "Contents" (PyList []) ;;
  objs <~ py_iter contents ;;
  traditional_loop s3 bucket_name objs.

End WithServices.

End Notebook.

(** * More of what the code is measured against *)

Module MoreSpec.

Import Reader.

(** The first [n] identifiers the random source gives from the state [r],
    and the state it is left in. *)
Fixpoint draws {rng : Type} (uuid4 : rng -> string * rng) (r : rng) (n : nat)
  : list string * rng :=
  match n with
  | 0 => ([], r)
  | S n' =>
      let '(i, r1) := uuid4 r in
      let '(l, r2) := draws uuid4 r1 n' in (i :: l, r2)
  end.

(** The results of several runs, one after the other: their lists put
    end to end, or the first exception. *)
Fixpoint collect {A : Type} (runs : list (res (list A))) : res (list A) :=
  match runs with
  | [] => Return []
  | run :: rest => l <- run ;; ls <- collect rest ;; Return (l ++ ls)
  end.

(** The entries among the lines printed. *)
Fixpoint entries_of (lines : list Notebook.line) : list pyval :=
  match lines with
  | [] => []
  | Notebook.Entry e :: rest => e :: entries_of rest
  | Notebook.Downloading _ :: rest => entries_of rest
  end.

(** The keys among the lines printed. *)
Fixpoint downloads_of (lines : list Notebook.line) : list string :=
  match lines with
  | [] => []
  | Notebook.Downloading k :: rest => k :: downloads_of rest
  | Notebook.Entry _ :: rest => downloads_of rest
  end.

(** The record holds the integers [l] as its channels, in a list or in a
    tuple. *)
Definition holds_integers (c : ColourId.t) (l : list Z) : Prop :=
  ColourId.rgb c = PyList (List.map PyInt l)
  \/ ColourId.rgb c = PyTuple (List.map PyInt l).

(** The name of the file a colour family is saved under. *)
Definition family_file (colour : string) : string :=
  ("./small-files/" ++ colour ++ ".json.gz")%string.

Section WithServices.
Context {S : Services}.

(** The second data pipeline over the single key [key]. *)
Definition file_records (s3 : s3_client) (key : string) : res (list ColourId.t) :=
  Seq.to_list (pipeline_records (pipeline_documents s3 (mkgen [key] None))).

(** What [save_to_json_gz_file] stores for the records [cs]. *)
Definition stored (cs : list ColourId.t) : bytes :=
  gzip_compress
    (utf8_encode (json_dumps (PyList (List.map ColourId.toJSON cs)) 2)).

End WithServices.

End MoreSpec.

(** * A reference bucket

    A bucket with a directory marker and one file of two records, on the
    reference services. *)

Module RefBucket.

Local Open Scope string_scope.
#[local] Existing Instance Ref.services.

Definition navy : ColourId.t :=
  ColourId.make (PyStr "uuid-7") (PyStr "Navy") (PyStr "blue")
                (PyStr "#000080") (PyTuple [PyInt 0; PyInt 0; PyInt 128]).

Definition black_key : string := "2023-02-18/small-files/black.json.gz".

Definition listing : pyval :=
  PyDict [("Contents",
           PyList [PyDict [("Key", PyStr "2023-02-18/small-files/")];
                   PyDict [("Key", PyStr black_key)]])].

Definition s3 : Reader.s3_client :=
  {| Reader.list_objects_v2 := fun _ _ => Return listing;
     Reader.get_object_body := fun _ key =>
       if String.eqb key black_key
       then Return (MoreSpec.stored [navy; Ref.asphalt])
       else Raise (ServiceError 404) |}.

End RefBucket.

(** * Facts about the matcher *)

Module ReFacts.

Import Re Spec.

Lemma in_counts (lo hi k : nat) : In k (counts lo hi) <-> lo <= k <= hi.
Proof.
  unfold counts. rewrite <- in_rev, in_seq. lia.
Qed.

Lemma run_len_firstn (p : ascii -> bool) (s : list ascii) (k : nat) :
  k <= run_len p s -> forallb p (firstn k s) = true /\ List.length (firstn k s) = k.
Proof.
  revert k. induction s as [|c s IH]; intros k Hk; simpl in *.
  - assert (k = 0) by lia. subst. now simpl.
  - destruct k as [|k]; [now simpl|].
    destruct (p c) eqn:Hc; [|lia].
    destruct (IH k) as [H1 H2]; [lia|].
    simpl. rewrite Hc, H1, H2. now split.
Qed.

Lemma run_len_app (p : ascii -> bool) (w rest : list ascii) :
  forallb p w = true -> List.length w <= run_len p (w ++ rest).
Proof.
  induction w as [|c w IH]; simpl; intros H; [lia|].
  apply andb_true_iff in H as [Hc Hw]. rewrite Hc. specialize (IH Hw). lia.
Qed.

Lemma firstn_app_length {A : Type} (w rest : list A) :
  firstn (List.length w) (w ++ rest) = w.
Proof.
  induction w; simpl; congruence.
Qed.

Lemma skipn_app_length {A : Type} (w rest : list A) :
  skipn (List.length w) (w ++ rest) = rest.
Proof.
  induction w; simpl; congruence.
Qed.

(** Every result of the matcher is a match of the pattern, and splits the
    text it was given. *)
Lemma matches_sound (ic : bool) (r : regex) :
  forall s w gs rest,
    In (w, gs, rest) (matches ic r s) -> s = w ++ rest /\ Matched ic r w gs.
Proof.
  induction r as [a|a lo hi|r1 IH1 r2 IH2|r IH]; intros s w gs rest Hin; simpl in Hin.
  - destruct s as [|c s']; [contradiction|].
    destruct (atom_match ic a c) eqn:Hc; [|contradiction].
    destruct Hin as [Heq|[]]. inversion Heq; subst. split; [reflexivity|].
    now constructor.
  - apply in_map_iff in Hin as (k & Heq & Hk).
    inversion Heq; subst; clear Heq.
    apply in_counts in Hk as [Hlo Hhi].
    split; [symmetry; apply firstn_skipn|].
    assert (Hrun : k <= run_len (atom_match ic a) s) by (destruct hi; lia).
    destruct (run_len_firstn _ _ Hrun) as [Hall Hlen].
    constructor; rewrite ?Hlen; auto.
    destruct hi; simpl; [lia|exact I].
  - apply in_flat_map in Hin as ([[w1 g1] s1] & H1 & H2).
    apply in_map_iff in H2 as ([[w2 g2] s2] & Heq & H2).
    inversion Heq; subst; clear Heq.
    apply IH1 in H1 as [-> M1]. apply IH2 in H2 as [-> M2].
    split; [now rewrite app_assoc|]. now constructor.
  - apply in_map_iff in Hin as ([[w' g'] s'] & Heq & H).
    inversion Heq; subst; clear Heq.
    apply IH in H as [-> M]. split; [reflexivity|]. now constructor.
Qed.

(** Every match of the pattern at the start of a text is among the results
    of the matcher. *)
Lemma matches_complete (ic : bool) (r : regex) (w : list ascii) (gs : list (list ascii)) :
  Matched ic r w gs ->
  forall rest, In (w, gs, rest) (matches ic r (w ++ rest)).
Proof.
  induction 1 as [a c Hc|a lo hi w Hall Hlo Hhi|r1 r2 w1 w2 g1 g2 _ IH1 _ IH2|r w g _ IH];
    intros rest; simpl.
  - rewrite Hc. now left.
  - apply in_map_iff. exists (List.length w). split.
    + now rewrite firstn_app_length, skipn_app_length.
    + apply in_counts. split; [exact Hlo|].
      pose proof (run_len_app (atom_match ic a) w rest Hall).
      destruct hi; simpl in *; lia.
  - apply in_flat_map. exists (w1, g1, w2 ++ rest). split.
    + rewrite <- app_assoc. apply IH1.
    + apply in_map_iff. exists (w2, g2, rest). split; [reflexivity|apply IH2].
  - apply in_map_iff. exists (w, g, rest). split; [reflexivity|apply IH].
Qed.

Lemma matches_nil_iff (ic : bool) (r : regex) (s : list ascii) :
  matches ic r s = [] <-> ~ matches_at_start ic r s.
Proof.
  split.
  - intros Hnil (w & gs & rest & -> & M).
    pose proof (matches_complete M rest) as Hin. rewrite Hnil in Hin. exact Hin.
  - intros Hno. destruct (matches ic r s) as [|[[w gs] rest] l] eqn:E; [reflexivity|].
    exfalso. apply Hno. exists w, gs, rest.
    apply (matches_sound ic r s). rewrite E. now left.
Qed.

Lemma matches_head (ic : bool) (r : regex) (s w : list ascii) gs rest :
  hd_error (matches ic r s) = Some (w, gs, rest) ->
  s = w ++ rest /\ Matched ic r w gs.
Proof.
  intros H. apply (matches_sound ic r s).
  destruct (matches ic r s); simpl in H; [discriminate|].
  inversion H; subst. now left.
Qed.

(** [re.search] returns a match at the first position where the pattern
    matches. *)
Lemma search_from_some (ic : bool) (r : regex) :
  forall s pos m,
    search_from ic r pos s = Some m ->
    exists pre rest,
      s = pre ++ m_whole m ++ rest
      /\ m_start m = pos + List.length pre
      /\ hd_error (matches ic r (m_whole m ++ rest))
         = Some (m_whole m, m_groups m, rest)
      /\ forall pre' suf',
           s = pre' ++ suf' -> List.length pre' < List.length pre ->
           ~ matches_at_start ic r suf'.
Proof.
  induction s as [|c s IH]; intros pos m H; simpl in H.
  - destruct (hd_error (matches ic r [])) as [[[w g] rest]|] eqn:E; [|discriminate].
    inversion H; subst; clear H. simpl.
    destruct (matches_head _ _ _ E) as [Hs _].
    exists [], rest. simpl. rewrite <- Hs. repeat split; auto.
    intros pre' suf' _ Hlt. simpl in Hlt. lia.
  - destruct (hd_error (matches ic r (c :: s))) as [[[w g] rest]|] eqn:E.
    + inversion H; subst; clear H. simpl.
      destruct (matches_head _ _ _ E) as [Hs _].
      exists [], rest. simpl. rewrite <- Hs. repeat split; auto.
      intros pre' suf' _ Hlt. simpl in Hlt. lia.
    + apply IH in H as (pre & rest & Hs & Hstart & Hhd & Hfirst).
      exists (c :: pre), rest. simpl. repeat split; auto.
      * now rewrite Hs.
      * lia.
      * intros pre' suf' Heq Hlt.
        destruct pre' as [|c' pre'].
        -- simpl in Heq. subst suf'. apply matches_nil_iff.
           destruct (matches ic r (c :: s)); [reflexivity|discriminate].
        -- simpl in Heq. inversion Heq; subst c'.
           apply (Hfirst pre' suf'); [assumption|simpl in Hlt; lia].
Qed.

Lemma search_from_none (ic : bool) (r : regex) :
  forall s pos,
    search_from ic r pos s = None ->
    forall pre suf, s = pre ++ suf -> ~ matches_at_start ic r suf.
Proof.
  induction s as [|c s IH]; intros pos H pre suf Heq; simpl in H.
  - destruct (hd_error (matches ic r [])) as [[[w g] rest]|] eqn:E; [discriminate|].
    symmetry in Heq. apply app_eq_nil in Heq as [_ ->].
    apply matches_nil_iff. destruct (matches ic r []); [reflexivity|discriminate].
  - destruct (hd_error (matches ic r (c :: s))) as [[[w g] rest]|] eqn:E; [discriminate|].
    destruct pre as [|c' pre]; simpl in Heq.
    + subst suf. apply matches_nil_iff.
      destruct (matches ic r (c :: s)); [reflexivity|discriminate].
    + inversion Heq; subst. eapply IH; eauto.
Qed.

End ReFacts.

(** * Facts about the extractors *)

Module ExtractFacts.

Import Re Spec ReFacts Scraper.

Lemma chars_app (a b : string) :
  list_ascii_of_string (a ++ b)%string
  = list_ascii_of_string a ++ list_ascii_of_string b.
Proof.
  induction a as [|c a IH]; simpl; [reflexivity|now rewrite IH].
Qed.

Lemma chars_inj (a b : string) :
  list_ascii_of_string a = list_ascii_of_string b -> a = b.
Proof.
  intros H. rewrite <- (string_of_list_ascii_of_string a),
    <- (string_of_list_ascii_of_string b). now rewrite H.
Qed.

Lemma chars_length (a : string) :
  List.length (list_ascii_of_string a) = String.length a.
Proof.
  induction a; simpl; congruence.
Qed.

(** A text split as lists of characters is split as strings. *)
Lemma split_as_strings (text : string) (pre w post : list ascii) :
  list_ascii_of_string text = pre ++ w ++ post ->
  text = (string_of_list_ascii pre ++ string_of_list_ascii w
          ++ string_of_list_ascii post)%string.
Proof.
  intros H. apply chars_inj.
  now rewrite !chars_app, !list_ascii_of_string_of_list_ascii.
Qed.

Lemma app_same_length {A : Type} (p1 p2 s1 s2 : list A) :
  p1 ++ s1 = p2 ++ s2 -> List.length p1 = List.length p2 -> p1 = p2 /\ s1 = s2.
Proof.
  revert p2. induction p1 as [|x p1 IH]; intros [|y p2] H Hl; simpl in *;
    try discriminate; [now split|].
  inversion H; subst. destruct (IH p2) as [-> ->]; auto.
Qed.

Lemma hash_atom (c : ascii) :
  atom_match true (Lit "#") c = Ascii.eqb c "#".
Proof.
  destruct c as [[] [] [] [] [] [] [] []]; vm_compute; reflexivity.
Qed.

Lemma hex_atom (c : ascii) :
  atom_match true (CharSet [("0", "9"); ("a", "f"); ("A", "F")]%char) c
  = is_hex_digit c.
Proof.
  destruct c as [[] [] [] [] [] [] [] []]; vm_compute; reflexivity.
Qed.

Lemma forallb_ext_eq {A : Type} (p q : A -> bool) (l : list A) :
  (forall x, p x = q x) -> forallb p l = forallb q l.
Proof.
  intros H. induction l; simpl; [reflexivity|now rewrite H, IHl].
Qed.

(** The hex pattern matches exactly the hex colours, and captures nothing. *)
Lemma hex_pattern_matched (w : list ascii) (gs : list (list ascii)) :
  Matched true hex_colour_pattern w gs <-> is_hex_colour w /\ gs = [].
Proof.
  unfold hex_colour_pattern, is_hex_colour. split.
  - intros M. inversion M as [| |r1 r2 w1 w2 g1 g2 M1 M2|]; subst.
    inversion M1 as [a c Hc| | |]; subst.
    inversion M2 as [|a lo hi w' Hall Hlo Hhi| |]; subst.
    rewrite hash_atom in Hc. apply Ascii.eqb_eq in Hc. subst c.
    split; [|reflexivity]. exists w2. simpl in *. repeat split.
    + lia.
    + now rewrite <- (forallb_ext_eq _ _ w2 hex_atom).
  - intros [(ds & -> & Hlen & Hall) ->].
    change ("#"%char :: ds) with (["#"%char] ++ ds).
    change (@nil (list ascii)) with (@nil (list ascii) ++ []).
    constructor.
    + constructor. now rewrite hash_atom.
    + constructor; simpl; try lia.
      now rewrite (forallb_ext_eq _ _ ds hex_atom).
Qed.

Lemma hex_colour_length (w : list ascii) : is_hex_colour w -> List.length w = 7.
Proof.
  intros (ds & -> & Hlen & _). simpl. now rewrite Hlen.
Qed.

Lemma hex_colour_starts_with_hash (w : list ascii) :
  is_hex_colour w -> In "#"%char w.
Proof.
  intros (ds & -> & _). now left.
Qed.

Lemma hex_matches_at_start (s : list ascii) :
  matches_at_start true hex_colour_pattern s
  <-> exists w rest, s = w ++ rest /\ is_hex_colour w.
Proof.
  split.
  - intros (w & gs & rest & -> & M). apply hex_pattern_matched in M as [Hw _].
    now exists w, rest.
  - intros (w & rest & -> & Hw). exists w, [], rest. split; [reflexivity|].
    now apply hex_pattern_matched.
Qed.

(** What the extractor computes, in terms of the search. *)
Lemma extract_hex_colour_eq (text : string) :
  extract_hex_colour text =
  Return (match search hex_colour_pattern text IGNORECASE with
          | Some m => Some (string_of_list_ascii (m_whole m))
          | None => None
          end).
Proof.
  unfold extract_hex_colour. now destruct (search _ _ _).
Qed.

Lemma string_length_of_chars (l : list ascii) :
  String.length (string_of_list_ascii l) = List.length l.
Proof.
  now rewrite <- chars_length, list_ascii_of_string_of_list_ascii.
Qed.

(** A successful search, read on the text as a string. *)
Lemma search_some_split (r : regex) (text : string) (m : re_match) :
  search r text IGNORECASE = Some m ->
  exists pre rest : list ascii,
    list_ascii_of_string text = pre ++ m_whole m ++ rest
    /\ Matched true r (m_whole m) (m_groups m)
    /\ forall pre' suf',
         list_ascii_of_string text = pre' ++ suf' ->
         List.length pre' < List.length pre ->
         ~ matches_at_start true r suf'.
Proof.
  unfold search, IGNORECASE. intros H.
  apply search_from_some in H as (pre & rest & Hs & _ & Hhd & Hfirst).
  exists pre, rest. split; [exact Hs|]. split; [|exact Hfirst].
  now destruct (matches_head _ _ _ Hhd).
Qed.

Lemma extract_hex_some_first (text h : string) :
  extract_hex_colour text = Return (Some h) ->
  exists pre post : string,
    text = (pre ++ h ++ post)%string /\ is_hex_colour_string h
    /\ forall pre' h' post' : string,
         text = (pre' ++ h' ++ post')%string -> is_hex_colour_string h' ->
         String.length pre <= String.length pre'.
Proof.
  rewrite extract_hex_colour_eq. intros H.
  destruct (search hex_colour_pattern text IGNORECASE) as [m|] eqn:E;
    [|discriminate].
  inversion H; subst h; clear H.
  apply search_some_split in E as (pre & rest & Hs & M & Hfirst).
  apply hex_pattern_matched in M as [Hw _].
  exists (string_of_list_ascii pre), (string_of_list_ascii rest).
  split; [now apply split_as_strings|].
  split; [unfold is_hex_colour_string; now rewrite list_ascii_of_string_of_list_ascii|].
  intros pre' h' post' Heq Hh'.
  rewrite string_length_of_chars.
  destruct (Nat.le_gt_cases (List.length pre) (String.length pre')) as [Hle|Hlt];
    [exact Hle|exfalso].
  apply (Hfirst (list_ascii_of_string pre')
                (list_ascii_of_string h' ++ list_ascii_of_string post')).
  - now rewrite Heq, !chars_app.
  - now rewrite chars_length.
  - apply hex_matches_at_start. now exists (list_ascii_of_string h'), (list_ascii_of_string post').
Qed.

Lemma extract_hex_none_absent (text : string) :
  extract_hex_colour text = Return None ->
  forall pre h post : string,
    text = (pre ++ h ++ post)%string -> ~ is_hex_colour_string h.
Proof.
  rewrite extract_hex_colour_eq. intros H pre h post Heq Hh.
  destruct (search hex_colour_pattern text IGNORECASE) as [m|] eqn:E;
    [discriminate|].
  unfold search, IGNORECASE in E.
  eapply search_from_none
    with (pre := list_ascii_of_string pre)
         (suf := list_ascii_of_string h ++ list_ascii_of_string post) in E.
  - apply E. apply hex_matches_at_start.
    now exists (list_ascii_of_string h), (list_ascii_of_string post).
  - now rewrite Heq, !chars_app.
Qed.

Lemma extract_hex_total (text : string) :
  exists o, extract_hex_colour text = Return o.
Proof.
  rewrite extract_hex_colour_eq. eauto.
Qed.

Lemma extract_hex_first_some (text h pre post : string) :
  text = (pre ++ h ++ post)%string -> is_hex_colour_string h ->
  (forall pre' h' post' : string,
     text = (pre' ++ h' ++ post')%string -> is_hex_colour_string h' ->
     String.length pre <= String.length pre') ->
  extract_hex_colour text = Return (Some h).
Proof.
  intros Heq Hh Hmin.
  destruct (extract_hex_total text) as [[h0|] E].
  - rewrite E. f_equal. f_equal.
    destruct (extract_hex_some_first _ E) as (pre0 & post0 & Heq0 & Hh0 & Hmin0).
    pose proof (Hmin _ _ _ Heq0 Hh0) as H1.
    pose proof (Hmin0 _ _ _ Heq Hh) as H2.
    assert (Hc : list_ascii_of_string pre0 ++ list_ascii_of_string h0 ++ list_ascii_of_string post0
                 = list_ascii_of_string pre ++ list_ascii_of_string h ++ list_ascii_of_string post).
    { rewrite <- !chars_app. now rewrite <- Heq0, <- Heq. }
    apply app_same_length in Hc as [_ Hc]; [|rewrite !chars_length; lia].
    apply app_same_length in Hc as [Hc _].
    + now apply chars_inj.
    + now rewrite (hex_colour_length Hh0), (hex_colour_length Hh).
  - exfalso. exact (extract_hex_none_absent E _ _ Heq Hh).
Qed.

Lemma extract_hex_absent_none (text : string) :
  (forall pre h post : string,
     text = (pre ++ h ++ post)%string -> ~ is_hex_colour_string h) ->
  extract_hex_colour text = Return None.
Proof.
  intros Hno. destruct (extract_hex_total text) as [[h0|] E]; [|exact E].
  exfalso. destruct (extract_hex_some_first _ E) as (pre0 & post0 & Heq0 & Hh0 & _).
  exact (Hno _ _ _ Heq0 Hh0).
Qed.

(** ** The RGB pattern *)

Lemma letter_atom (l : ascii) (c : ascii) :
  In l ["r"; "g"; "b"]%char ->
  atom_match true (Lit l) c = one_of l (ascii_of_N (code l - 32)) c.
Proof.
  intros [<-|[<-|[<-|[]]]];
    destruct c as [[] [] [] [] [] [] [] []]; vm_compute; reflexivity.
Qed.

Lemma comma_atom (c : ascii) :
  atom_match true (Lit ",") c = Ascii.eqb c ",".
Proof.
  destruct c as [[] [] [] [] [] [] [] []]; vm_compute; reflexivity.
Qed.

Ltac invert_matched :=
  repeat match goal with
    | H : Matched _ (Cat _ _) _ _ |- _ => inversion H; subst; clear H
    | H : Matched _ (Group _) _ _ |- _ => inversion H; subst; clear H
    | H : Matched _ (Atom _) _ _ |- _ => inversion H; subst; clear H
    | H : Matched _ (Rep _ _ _) _ _ |- _ => inversion H; subst; clear H
    end.

Lemma rgb_pattern_matched (w : list ascii) (gs : list (list ascii)) :
  Matched true rgb_colour_pattern w gs <->
  exists d1 d2 d3, gs = [d1; d2; d3] /\ is_rgb_colour w d1 d2 d3.
Proof.
  unfold rgb_colour_pattern. split.
  - intros M. invert_matched.
    repeat match goal with
      | H : atom_match true (Lit ",") _ = true |- _ =>
          rewrite comma_atom in H; apply Ascii.eqb_eq in H; subst
      | H : atom_match true (Lit _) _ = true |- _ =>
          rewrite letter_atom in H by (simpl; tauto)
      end.
    simpl in *.
    match goal with
    | |- exists d1 d2 d3, [?a; ?b; ?c] = _ /\ _ => exists a, b, c
    end.
    split; [reflexivity|].
    unfold is_rgb_colour, blank, digit_group.
    do 6 eexists. split; [reflexivity|]. repeat split; auto.
  - intros (d1 & d2 & d3 & -> & c1 & c2 & c3 & ws1 & ws2 & ws3 & -> &
            H1 & H2 & H3 & B1 & B2 & B3 & [D1 L1] & [D2 L2] & [D3 L3]).
    change [c1; c2; c3] with ([c1] ++ [c2] ++ [c3]).
    rewrite <- !app_assoc.
    change [d1; d2; d3] with
      ([] ++ [] ++ [] ++ [] ++ [d1] ++ [] ++ [] ++ [d2] ++ [] ++ [] ++ [d3]).
    repeat match goal with
      | |- Matched _ (Cat _ _) _ _ => constructor
      | |- Matched _ (Group _) _ [_] => constructor
      | |- Matched _ (Rep _ _ _) _ _ => constructor; simpl; auto; try lia
      | |- Matched _ (Atom (Lit ",")) _ _ =>
          constructor; rewrite comma_atom; apply Ascii.eqb_refl
      | |- Matched _ (Atom (Lit _)) _ _ =>
          constructor; rewrite letter_atom by (simpl; tauto); assumption
      end.
Qed.

(** *** The first result is the greedy one *)

Lemma hd_error_map {A B : Type} (f : A -> B) (l : list A) (y : B) :
  hd_error (List.map f l) = Some y -> exists x, hd_error l = Some x /\ f x = y.
Proof.
  destruct l as [|x l]; simpl; intros H; [discriminate|].
  inversion H. now exists x.
Qed.

Lemma hd_error_flat_map {A B : Type} (f : A -> list B) (l : list A) (y : B) :
  hd_error (flat_map f l) = Some y -> exists x, In x l /\ hd_error (f x) = Some y.
Proof.
  induction l as [|x l IH]; simpl; intros H; [discriminate|].
  destruct (f x) as [|z zs] eqn:E; simpl in H.
  - destruct (IH H) as (x' & Hin & Hx'). exists x'. auto.
  - exists x. rewrite E. auto.
Qed.

Lemma cat_head (ic : bool) (r1 r2 : regex) (s w : list ascii) gs rest :
  hd_error (matches ic (Cat r1 r2) s) = Some (w, gs, rest) ->
  exists w1 g1 s1 w2 g2,
    In (w1, g1, s1) (matches ic r1 s)
    /\ hd_error (matches ic r2 s1) = Some (w2, g2, rest)
    /\ w = w1 ++ w2 /\ gs = g1 ++ g2.
Proof.
  simpl. intros H.
  apply hd_error_flat_map in H as ([[w1 g1] s1] & Hin & H).
  apply hd_error_map in H as ([[w2 g2] s2] & H & Heq).
  inversion Heq; subst. exists w1, g1, s1, w2, g2. auto.
Qed.

Lemma hd_counts (lo hi : nat) :
  hd_error (counts lo hi) = if lo <=? hi then Some hi else None.
Proof.
  unfold counts. destruct (Nat.leb_spec lo hi) as [H|H].
  - replace (S hi - lo) with (S (hi - lo)) by lia.
    rewrite seq_S, rev_app_distr. simpl. f_equal. lia.
  - replace (S hi - lo) with 0 by lia. reflexivity.
Qed.

Lemma run_len_skipn (p : ascii -> bool) (s : list ascii) :
  match skipn (run_len p s) s with
  | c :: _ => p c = false
  | [] => True
  end.
Proof.
  induction s as [|c s IH]; simpl; [exact I|].
  destruct (p c) eqn:E; simpl; [exact IH|exact E].
Qed.

Lemma digits_head (s w : list ascii) gs rest :
  hd_error (matches true (Group (Rep Digit 1 (Some 3))) s) = Some (w, gs, rest) ->
  gs = [w] /\ (List.length w = 3 \/ no_digit_ahead rest).
Proof.
  cbn [matches]. change (atom_match true Digit) with is_digit.
  remember (Nat.min 3 (run_len is_digit s)) as top eqn:Htop.
  intros H.
  apply hd_error_map in H as ([[w' g'] s'] & H & Heq).
  apply hd_error_map in H as (k & Hk & Hk').
  injection Hk' as <- <- <-. injection Heq as <- <- <-.
  split; [reflexivity|].
  rewrite hd_counts in Hk.
  destruct (1 <=? top) eqn:E; [|discriminate]. injection Hk as <-.
  destruct (Nat.le_gt_cases 3 (run_len is_digit s)) as [Hge|Hlt].
  - left. assert (Ht : top <= run_len is_digit s) by lia.
    destruct (run_len_firstn is_digit s Ht) as [_ ->]. lia.
  - right. replace top with (run_len is_digit s) by lia.
    apply (run_len_skipn is_digit s).
Qed.

(** The preferred match of the RGB pattern at the start of [s]. *)
Lemma rgb_head (s w : list ascii) gs rest :
  hd_error (matches true rgb_colour_pattern s) = Some (w, gs, rest) ->
  exists d1 d2 d3,
    gs = [d1; d2; d3] /\ is_rgb_colour w d1 d2 d3 /\ s = w ++ rest
    /\ (List.length d3 = 3 \/ no_digit_ahead rest).
Proof.
  intros H. destruct (matches_head _ _ _ H) as [Hs M].
  apply rgb_pattern_matched in M as (d1 & d2 & d3 & -> & Hshape).
  exists d1, d2, d3. repeat split; auto.
  unfold rgb_colour_pattern in H.
  repeat match goal with
    | H : hd_error (matches true (Cat _ _) _) = Some _ |- _ =>
        let Hin := fresh "Hin" in
        apply cat_head in H as (? & ? & ? & ? & ? & Hin & H & ? & ?);
        apply matches_sound in Hin as [_ Hin]
    end.
  apply digits_head in H as [-> Hgreedy].
  invert_matched. subst. simpl in *.
  match goal with
  | H : [_; _; _] = [_; _; _] |- _ => inversion H; subst
  end.
  exact Hgreedy.
Qed.

(** *** A text has one preferred reading *)

Lemma run_unique (p : ascii -> bool) (a a' t t' : list ascii) :
  forallb p a = true -> forallb p a' = true ->
  match t with c :: _ => p c = false | [] => True end ->
  match t' with c :: _ => p c = false | [] => True end ->
  a ++ t = a' ++ t' -> a = a' /\ t = t'.
Proof.
  revert a'. induction a as [|x a IH]; intros [|y a'] Ha Ha' Ht Ht' Heq;
    simpl in *.
  - now split.
  - subst t. apply andb_true_iff in Ha' as [Hy _]. congruence.
  - subst t'. apply andb_true_iff in Ha as [Hx _]. congruence.
  - apply andb_true_iff in Ha as [_ Ha]. apply andb_true_iff in Ha' as [_ Ha'].
    injection Heq as -> Heq. destruct (IH a' Ha Ha' Ht Ht' Heq) as [-> ->].
    now split.
Qed.

Lemma longer_prefix_head (p : ascii -> bool) (a a' t t' : list ascii) :
  forallb p a = true -> a ++ t = a' ++ t' -> List.length a' < List.length a ->
  match t' with c :: _ => p c = true | [] => False end.
Proof.
  revert a'. induction a as [|x a IH]; intros [|y a'] Ha Heq Hlt; simpl in *;
    try lia.
  - subst t'. now apply andb_true_iff in Ha as [Hx _].
  - apply andb_true_iff in Ha as [_ Ha]. injection Heq as _ Heq.
    apply (IH a' Ha Heq). lia.
Qed.

Lemma capped_run_unique (d e post post' : list ascii) :
  digit_group d -> digit_group e ->
  List.length d = 3 \/ no_digit_ahead post ->
  List.length e = 3 \/ no_digit_ahead post' ->
  d ++ post = e ++ post' -> d = e /\ post = post'.
Proof.
  intros [Hd Ld] [He Le] Gd Ge Heq.
  destruct (Nat.lt_trichotomy (List.length d) (List.length e)) as [Hlt|[Hl|Hlt]].
  - exfalso. symmetry in Heq.
    pose proof (longer_prefix_head is_digit e d post' post He Heq Hlt) as H.
    destruct Gd as [Gd|Gd]; [lia|].
    unfold no_digit_ahead in Gd. destruct post; [exact H|congruence].
  - now apply app_same_length.
  - exfalso.
    pose proof (longer_prefix_head is_digit d e post post' Hd Heq Hlt) as H.
    destruct Ge as [Ge|Ge]; [lia|].
    unfold no_digit_ahead in Ge. destruct post'; [exact H|congruence].
Qed.

Lemma digit_not_space (c : ascii) : is_digit c = true -> is_space c = false.
Proof.
  destruct c as [[] [] [] [] [] [] [] []]; vm_compute; congruence.
Qed.

Lemma comma_not_digit : is_digit ","%char = false.
Proof. reflexivity. Qed.

Lemma digit_group_head (d t : list ascii) :
  digit_group d -> match d ++ t with c :: _ => is_space c = false | [] => True end.
Proof.
  intros [Hd Ld]. destruct d as [|c d]; simpl in *; [lia|].
  apply andb_true_iff in Hd as [Hc _]. now apply digit_not_space.
Qed.

(** Two readings of the same text as an RGB colour, each with a greedy
    last group, are the same reading. *)
Lemma rgb_reading_unique (w w' post post' d1 d2 d3 e1 e2 e3 : list ascii) :
  w ++ post = w' ++ post' ->
  is_rgb_colour w d1 d2 d3 -> is_rgb_colour w' e1 e2 e3 ->
  List.length d3 = 3 \/ no_digit_ahead post ->
  List.length e3 = 3 \/ no_digit_ahead post' ->
  w = w' /\ d1 = e1 /\ d2 = e2 /\ d3 = e3.
Proof.
  intros Heq (c1 & c2 & c3 & ws1 & ws2 & ws3 & -> & _ & _ & _ &
              B1 & B2 & B3 & D1 & D2 & D3)
         (c1' & c2' & c3' & ws1' & ws2' & ws3' & -> & _ & _ & _ &
              B1' & B2' & B3' & E1 & E2 & E3) Gd Ge.
  simpl in Heq. rewrite <- !app_assoc in Heq. simpl in Heq.
  injection Heq as -> -> -> Heq.
  apply (run_unique is_space) in Heq as [-> Heq]; auto;
    try (rewrite <- !app_assoc; now apply digit_group_head).
  apply (run_unique is_digit) in Heq as [-> Heq];
    try (apply D1 || apply E1 || exact comma_not_digit).
  injection Heq as Heq.
  rewrite <- !app_assoc in Heq.
  apply (run_unique is_space) in Heq as [-> Heq]; auto;
    try (now apply digit_group_head).
  apply (run_unique is_digit) in Heq as [-> Heq];
    try (apply D2 || apply E2 || exact comma_not_digit).
  injection Heq as Heq.
  rewrite <- !app_assoc in Heq.
  apply (run_unique is_space) in Heq as [-> Heq]; auto;
    try (now apply digit_group_head).
  apply capped_run_unique in Heq as [-> _]; auto.
Qed.

(** *** The RGB extractor *)

Lemma int_digit_group (d : list ascii) :
  digit_group d -> int (string_of_list_ascii d) = Return (decimal d).
Proof.
  intros [Hd Ld]. unfold int. rewrite list_ascii_of_string_of_list_ascii.
  destruct d as [|c d]; [simpl in Ld; lia|]. now rewrite Hd.
Qed.

Lemma extract_rgb_found (text : string) (m : re_match) (d1 d2 d3 : list ascii) :
  search rgb_colour_pattern text IGNORECASE = Some m ->
  m_groups m = [d1; d2; d3] ->
  digit_group d1 -> digit_group d2 -> digit_group d3 ->
  extract_rgb_colour text = Return (Some (decimal d1, decimal d2, decimal d3)).
Proof.
  intros E Hg D1 D2 D3. unfold extract_rgb_colour, group. rewrite E, Hg. simpl.
  now rewrite !int_digit_group.
Qed.

Lemma rgb_groups (w d1 d2 d3 : list ascii) :
  is_rgb_colour w d1 d2 d3 -> digit_group d1 /\ digit_group d2 /\ digit_group d3.
Proof.
  intros (c1 & c2 & c3 & ws1 & ws2 & ws3 & _ & _ & _ & _ & _ & _ & _ & D1 & D2 & D3).
  auto.
Qed.

Lemma rgb_matches_at_start (s : list ascii) :
  matches_at_start true rgb_colour_pattern s
  <-> exists w rest d1 d2 d3, s = w ++ rest /\ is_rgb_colour w d1 d2 d3.
Proof.
  split.
  - intros (w & gs & rest & -> & M).
    apply rgb_pattern_matched in M as (d1 & d2 & d3 & _ & Hw).
    now exists w, rest, d1, d2, d3.
  - intros (w & rest & d1 & d2 & d3 & -> & Hw). exists w, [d1; d2; d3], rest.
    split; [reflexivity|]. apply rgb_pattern_matched. now exists d1, d2, d3.
Qed.

(** What a successful search of the RGB pattern found. *)
Lemma rgb_search_some (text : string) (m : re_match) :
  search rgb_colour_pattern text IGNORECASE = Some m ->
  exists (pre rest d1 d2 d3 : list ascii),
    list_ascii_of_string text = pre ++ m_whole m ++ rest
    /\ m_groups m = [d1; d2; d3]
    /\ is_rgb_colour (m_whole m) d1 d2 d3
    /\ (List.length d3 = 3 \/ no_digit_ahead rest)
    /\ forall pre' suf',
         list_ascii_of_string text = pre' ++ suf' ->
         List.length pre' < List.length pre ->
         ~ matches_at_start true rgb_colour_pattern suf'.
Proof.
  unfold search, IGNORECASE. intros H.
  apply search_from_some in H as (pre & rest & Hs & _ & Hhd & Hfirst).
  apply rgb_head in Hhd as (d1 & d2 & d3 & Hg & Hw & _ & Hgreedy).
  exists pre, rest, d1, d2, d3. auto.
Qed.

Lemma extract_rgb_total (text : string) :
  exists o, extract_rgb_colour text = Return o.
Proof.
  destruct (search rgb_colour_pattern text IGNORECASE) as [m|] eqn:E.
  - destruct (rgb_search_some _ E) as (pre & rest & d1 & d2 & d3 & _ & Hg & Hw & _).
    destruct (rgb_groups Hw) as (D1 & D2 & D3).
    rewrite (extract_rgb_found _ E Hg D1 D2 D3). eauto.
  - unfold extract_rgb_colour. rewrite E. eauto.
Qed.

Lemma extract_rgb_some_first (text : string) (r g b : Z) :
  extract_rgb_colour text = Return (Some (r, g, b)) ->
  exists pre w post : string,
    text = (pre ++ w ++ post)%string /\ rgb_colour_reads w post r g b
    /\ forall pre' w' post' : string,
         text = (pre' ++ w' ++ post')%string -> is_rgb_colour_string w' ->
         String.length pre <= String.length pre'.
Proof.
  intros H.
  destruct (search rgb_colour_pattern text IGNORECASE) as [m|] eqn:E;
    [|unfold extract_rgb_colour in H; rewrite E in H; discriminate].
  destruct (rgb_search_some _ E)
    as (pre & rest & d1 & d2 & d3 & Hs & Hg & Hw & Hgreedy & Hfirst).
  destruct (rgb_groups Hw) as (D1 & D2 & D3).
  rewrite (extract_rgb_found _ E Hg D1 D2 D3) in H.
  injection H as <- <- <-.
  exists (string_of_list_ascii pre), (string_of_list_ascii (m_whole m)),
    (string_of_list_ascii rest).
  split; [now apply split_as_strings|]. split.
  - exists d1, d2, d3. rewrite !list_ascii_of_string_of_list_ascii. auto.
  - intros pre' w' post' Heq (e1 & e2 & e3 & Hw').
    rewrite string_length_of_chars.
    destruct (Nat.le_gt_cases (List.length pre) (String.length pre')) as [Hle|Hlt];
      [exact Hle|exfalso].
    apply (Hfirst (list_ascii_of_string pre')
                  (list_ascii_of_string w' ++ list_ascii_of_string post')).
    + now rewrite Heq, !chars_app.
    + now rewrite chars_length.
    + apply rgb_matches_at_start.
      now exists (list_ascii_of_string w'), (list_ascii_of_string post'), e1, e2, e3.
Qed.

Lemma extract_rgb_none_absent (text : string) :
  extract_rgb_colour text = Return None ->
  forall pre w post : string,
    text = (pre ++ w ++ post)%string -> ~ is_rgb_colour_string w.
Proof.
  intros H pre w post Heq (d1 & d2 & d3 & Hw).
  destruct (search rgb_colour_pattern text IGNORECASE) as [m|] eqn:E.
  - destruct (rgb_search_some _ E) as (? & ? & e1 & e2 & e3 & _ & Hg & Hw' & _).
    destruct (rgb_groups Hw') as (D1 & D2 & D3).
    rewrite (extract_rgb_found _ E Hg D1 D2 D3) in H. discriminate.
  - unfold search, IGNORECASE in E.
    eapply search_from_none
      with (pre := list_ascii_of_string pre)
           (suf := list_ascii_of_string w ++ list_ascii_of_string post) in E.
    + apply E. apply rgb_matches_at_start.
      now exists (list_ascii_of_string w), (list_ascii_of_string post), d1, d2, d3.
    + now rewrite Heq, !chars_app.
Qed.

Lemma extract_rgb_first_some (text pre w post : string) (r g b : Z) :
  text = (pre ++ w ++ post)%string -> rgb_colour_reads w post r g b ->
  (forall pre' w' post' : string,
     text = (pre' ++ w' ++ post')%string -> is_rgb_colour_string w' ->
     String.length pre <= String.length pre') ->
  extract_rgb_colour text = Return (Some (r, g, b)).
Proof.
  intros Heq (d1 & d2 & d3 & Hw & Hgreedy & -> & -> & ->) Hmin.
  destruct (extract_rgb_total text) as [[[[r0 g0] b0]|] E].
  - rewrite E.
    destruct (extract_rgb_some_first _ E)
      as (pre0 & w0 & post0 & Heq0 & (e1 & e2 & e3 & Hw0 & Hgreedy0 & -> & -> & ->) & Hmin0).
    assert (H1 : String.length pre <= String.length pre0).
    { apply (Hmin _ _ _ Heq0). now exists e1, e2, e3. }
    assert (H2 : String.length pre0 <= String.length pre).
    { apply (Hmin0 _ _ _ Heq). now exists d1, d2, d3. }
    assert (Hc : list_ascii_of_string pre0 ++ list_ascii_of_string w0 ++ list_ascii_of_string post0
                 = list_ascii_of_string pre ++ list_ascii_of_string w ++ list_ascii_of_string post).
    { rewrite <- !chars_app. now rewrite <- Heq0, <- Heq. }
    apply app_same_length in Hc as [_ Hc]; [|rewrite !chars_length; lia].
    destruct (rgb_reading_unique _ _ Hc Hw0 Hw Hgreedy0 Hgreedy)
      as (_ & -> & -> & ->).
    reflexivity.
  - exfalso. apply (extract_rgb_none_absent E _ _ Heq). now exists d1, d2, d3.
Qed.

Lemma extract_rgb_absent_none (text : string) :
  (forall pre w post : string,
     text = (pre ++ w ++ post)%string -> ~ is_rgb_colour_string w) ->
  extract_rgb_colour text = Return None.
Proof.
  intros Hno. destruct (extract_rgb_total text) as [[[[r g] b]|] E]; [|exact E].
  exfalso.
  destruct (extract_rgb_some_first _ E) as (pre & w & post & Heq & (d1 & d2 & d3 & Hw & _) & _).
  apply (Hno _ _ _ Heq). now exists d1, d2, d3.
Qed.

(** ** C5 *)

(** C5.  For every text, [extract_hex_colour] returns the first
    occurrence, from the left, of ['#'] followed by six hexadecimal digits
    of either case, and [None] exactly when the text has no such
    occurrence; it never raises.  A text without ['#'] gives [None]; the
    notebook's own text gives ["#FFA500"]. *)
Theorem extract_hex_colour_first_match (text : string) :
  (forall h : string,
     extract_hex_colour text = Return (Some h) <->
     exists pre post : string,
       text = (pre ++ h ++ post)%string /\ is_hex_colour_string h
       /\ forall pre' h' post' : string,
            text = (pre' ++ h' ++ post')%string -> is_hex_colour_string h' ->
            String.length pre <= String.length pre')
  /\ (extract_hex_colour text = Return None <->
      forall pre h post : string,
        text = (pre ++ h ++ post)%string -> ~ is_hex_colour_string h)
  /\ (exists o, extract_hex_colour text = Return o)
  /\ (~ In "#"%char (list_ascii_of_string text) ->
      extract_hex_colour text = Return None)
  /\ extract_hex_colour
       "This text contains a color code: #FFA500 and more text after"
     = Return (Some "#FFA500"%string)
  /\ extract_hex_colour "No hex colour" = Return None.
Proof.
  split; [|split; [|split; [|split; [|split]]]].
  - intros h. split.
    + apply extract_hex_some_first.
    + intros (pre & post & Heq & Hh & Hmin). eapply extract_hex_first_some; eauto.
  - split; [apply extract_hex_none_absent|apply extract_hex_absent_none].
  - apply extract_hex_total.
  - intros Hno. apply extract_hex_absent_none. intros pre h post Heq Hh.
    apply Hno. rewrite Heq, !chars_app.
    apply in_or_app. right. apply in_or_app. left.
    now apply hex_colour_starts_with_hash.
  - vm_compute. reflexivity.
  - vm_compute. reflexivity.
Qed.

(** ** C6 *)

(** C6, as the code has it.  For every text, [extract_rgb_colour] returns
    the three integers read by the first match, from the left, of [rgb] in
    either case, white space or none, and three groups of one to three
    digits, the first two followed by a comma and white space or none, the
    last taking all the digits it can; it returns [None] exactly when the
    text has no such match, and never raises. *)
Theorem extract_rgb_colour_first_match (text : string) :
  (forall r g b : Z,
     extract_rgb_colour text = Return (Some (r, g, b)) <->
     exists pre w post : string,
       text = (pre ++ w ++ post)%string /\ rgb_colour_reads w post r g b
       /\ forall pre' w' post' : string,
            text = (pre' ++ w' ++ post')%string -> is_rgb_colour_string w' ->
            String.length pre <= String.length pre')
  /\ (extract_rgb_colour text = Return None <->
      forall pre w post : string,
        text = (pre ++ w ++ post)%string -> ~ is_rgb_colour_string w)
  /\ (exists o, extract_rgb_colour text = Return o).
Proof.
  split; [|split].
  - intros r g b. split.
    + apply extract_rgb_some_first.
    + intros (pre & w & post & Heq & Hw & Hmin). eapply extract_rgb_first_some; eauto.
  - split; [apply extract_rgb_none_absent|apply extract_rgb_absent_none].
  - apply extract_rgb_total.
Qed.

(** C6, as the specification words it, fails where the white space
    differs from one space after [rgb] and none after the commas.  The text
    ["rgb1,2,3"] has no space after [rgb], and the notebook's own text has
    one after each comma: neither has a match of [rgb], one space and three
    groups separated by commas alone, and the extractor succeeds on both. *)
Lemma extract_rgb_colour_not_single_space :
  ((forall pre suf : list ascii,
      list_ascii_of_string "rgb1,2,3" = pre ++ suf ->
      ~ matches_at_start true spec_rgb_pattern suf)
   /\ extract_rgb_colour "rgb1,2,3" = Return (Some (1, 2, 3)%Z))
  /\ ((forall pre suf : list ascii,
         list_ascii_of_string
           "This text contains a color code: rgb 1, 2, 342 and more text after"
         = pre ++ suf ->
         ~ matches_at_start true spec_rgb_pattern suf)
      /\ extract_rgb_colour
           "This text contains a color code: rgb 1, 2, 342 and more text after"
         = Return (Some (1, 2, 342)%Z)).
Proof.
  split; split;
    try (apply (@search_from_none true spec_rgb_pattern _ 0));
    vm_compute; reflexivity.
Qed.

(** ** C3 *)

Lemma string_app_nil_r (s : string) : (s ++ "")%string = s.
Proof.
  induction s as [|c s IH]; simpl; [reflexivity|now rewrite IH].
Qed.

(** C3.  On the notebook's text [extract_rgb_colour] returns
    [(1, 2, 342)]; whatever the digits of the three groups are, the
    integers they spell are returned as they are, with no upper bound
    applied: 342 and 999 are above 255. *)
Theorem extract_rgb_colour_no_upper_bound :
  extract_rgb_colour
    "This text contains a color code: rgb 1, 2, 342 and more text after"
  = Return (Some (1, 2, 342)%Z)
  /\ (255 < 342)%Z
  /\ extract_rgb_colour "rgb 999, 999, 999" = Return (Some (999, 999, 999)%Z)
  /\ forall d1 d2 d3 : list ascii,
       digit_group d1 -> digit_group d2 -> digit_group d3 ->
       extract_rgb_colour
         (string_of_list_ascii
            (list_ascii_of_string "rgb " ++ d1 ++
             list_ascii_of_string ", " ++ d2 ++
             list_ascii_of_string ", " ++ d3))
       = Return (Some (decimal d1, decimal d2, decimal d3)).
Proof.
  split; [vm_compute; reflexivity|].
  split; [lia|].
  split; [vm_compute; reflexivity|].
  intros d1 d2 d3 D1 D2 D3.
  apply extract_rgb_first_some with (pre := ""%string) (post := ""%string)
    (w := string_of_list_ascii
            (list_ascii_of_string "rgb " ++ d1 ++
             list_ascii_of_string ", " ++ d2 ++
             list_ascii_of_string ", " ++ d3)).
  - simpl. now rewrite string_app_nil_r.
  - exists d1, d2, d3. rewrite list_ascii_of_string_of_list_ascii.
    split; [|simpl; auto].
    exists "r"%char, "g"%char, "b"%char, [" "%char], [" "%char], [" "%char].
    simpl. rewrite <- ?app_assoc. simpl.
    split; [reflexivity|]. repeat (split; [reflexivity|]). auto.
  - intros. simpl. lia.
Qed.

End ExtractFacts.

(** * Facts about the reader *)

Module ReaderFacts.

Import Reader RecordSpec.

(** ** The two predicates *)

Lemma is_colour_reddish_channels (c : ColourId.t) (r g b : Z) :
  has_channels c r g b ->
  is_colour_reddish c = Return ((g <? r) && (b <? r))%Z.
Proof.
  unfold is_colour_reddish. intros [-> | ->]; simpl;
    destruct (g <? r)%Z; reflexivity.
Qed.

Lemma is_colour_muted_channels (c : ColourId.t) (r g b : Z) :
  has_channels c r g b ->
  is_colour_muted c = Return ((r <? 128) && (g <? 128) && (b <? 128))%Z.
Proof.
  unfold is_colour_muted. intros [-> | ->]; simpl;
    destruct (r <? 128)%Z; simpl; try reflexivity;
    destruct (g <? 128)%Z; reflexivity.
Qed.

(** C1, as the code has it.  On a record with three integer channels
    [is_colour_reddish] returns true exactly when the red channel is
    strictly greater than both the green and the blue one, and false
    otherwise; it returns true on [(150, 0, 24)] and, 12 being greater
    than 4, on [(12, 4, 4)] too. *)
Theorem is_colour_reddish_spec :
  (forall (c : ColourId.t) (r g b : Z),
     has_channels c r g b ->
     (is_colour_reddish c = Return true <-> (r > g /\ r > b)%Z)
     /\ (is_colour_reddish c = Return false <-> ~ (r > g /\ r > b)%Z))
  /\ is_colour_reddish Ref.carmine = Return true
  /\ is_colour_reddish Ref.asphalt = Return true.
Proof.
  split; [|split; reflexivity].
  intros c r g b H. rewrite (is_colour_reddish_channels H).
  destruct (Z.ltb_spec g r), (Z.ltb_spec b r); simpl;
    (split; (split; [intros E; try discriminate; lia | intros E; try reflexivity; exfalso; lia])).
Qed.

Lemma is_colour_reddish_spec_witness :
  has_channels Ref.carmine 150 0 24
  /\ (is_colour_reddish Ref.carmine = Return true <-> (150 > 0 /\ 150 > 24)%Z).
Proof.
  split.
  - left. reflexivity.
  - apply (proj1 is_colour_reddish_spec Ref.carmine 150%Z 0%Z 24%Z).
    left. reflexivity.
Defined.

(** C1, as the specification words it, fails on its second example: the
    record with channels [(12, 4, 4)] is reddish. *)
Lemma is_colour_reddish_12_4_4 :
  has_channels Ref.asphalt 12 4 4
  /\ is_colour_reddish Ref.asphalt = Return true
  /\ is_colour_reddish Ref.asphalt <> Return false.
Proof.
  split; [right; reflexivity|]. split; [reflexivity|discriminate].
Qed.

(** C8.  On a record with three integer channels [is_colour_muted]
    returns true when all three are strictly below 128, and false when
    any of them is 128 or more. *)
Theorem is_colour_muted_spec (c : ColourId.t) (r g b : Z) :
  has_channels c r g b ->
  (is_colour_muted c = Return true <-> (r < 128 /\ g < 128 /\ b < 128)%Z)
  /\ (is_colour_muted c = Return false <-> (r >= 128 \/ g >= 128 \/ b >= 128)%Z).
Proof.
  intros H. rewrite (is_colour_muted_channels H).
  destruct (Z.ltb_spec r 128), (Z.ltb_spec g 128), (Z.ltb_spec b 128); simpl;
    (split; (split; [intros E; try discriminate; lia | intros E; try reflexivity; exfalso; lia])).
Qed.

Lemma is_colour_muted_spec_witness :
  has_channels Ref.asphalt 12 4 4
  /\ (is_colour_muted Ref.asphalt = Return true <-> (12 < 128 /\ 4 < 128 /\ 4 < 128)%Z).
Proof.
  split.
  - right. reflexivity.
  - apply (is_colour_muted_spec (c := Ref.asphalt) (r := 12) (g := 4) (b := 4)).
    right. reflexivity.
Defined.

(** ** The listing *)

Section Listing.
Context {S : Services}.

Lemma keys_loop_sound (objs : list pyval) (key : string) :
  In key (yielded (list_keys_loop objs)) ->
  (exists obj, In obj objs /\ py_get obj "Key" PyNone = Return (PyStr key))
  /\ py_endswith (PyStr key) "/" = Return false.
Proof.
  induction objs as [|obj rest IH]; simpl; [contradiction|].
  destruct (py_get obj "Key" PyNone) as [k|e] eqn:Hget; simpl; [|contradiction].
  destruct (py_endswith k "/") as [[]|e] eqn:Hend; simpl; [| |contradiction].
  - intros H. destruct (IH H) as [(o & Ho & Hk) He]. split; [|exact He].
    exists o. auto.
  - destruct k; simpl; try contradiction.
    intros [<-|H].
    + split; [|exact Hend]. exists obj. auto.
    + destruct (IH H) as [(o & Ho & Hk) He]. split; [|exact He].
      exists o. auto.
Qed.

(** On a listing whose objects all carry a string key the generator
    yields, in order, the keys that do not end in ["/"], and stops. *)
Lemma keys_loop_complete (objs : list pyval) (keys : list string) :
  List.map (fun obj => py_get obj "Key" PyNone) objs
  = List.map (fun k => Return (PyStr k)) keys ->
  list_keys_loop objs =
  mkgen (List.filter
           (fun k => negb (ends_with (list_ascii_of_string k)
                                     (list_ascii_of_string "/")))
           keys) None.
Proof.
  revert keys. induction objs as [|obj rest IH]; intros [|k keys] H;
    simpl in H; try discriminate; [reflexivity|].
  injection H as Hk H. cbn [list_keys_loop]. rewrite Hk. simpl.
  rewrite (IH keys H).
  destruct (ends_with _ _); reflexivity.
Qed.

(** C7.  For every listing response, every key that
    [list_s3_bucket_file_keys] yields is the key of an object of the
    response and does not end in ["/"]; when every key of the response
    carries the prefix, so does every key yielded.  On a response whose
    objects all carry a string key, the keys yielded are, in order, those
    that do not end in ["/"]. *)
Theorem list_s3_bucket_file_keys_spec
  (s3 : s3_client) (bucket_name prefix : string) (response : pyval) :
  list_objects_v2 s3 bucket_name prefix = Return response ->
  (forall key : string,
     In key (yielded (list_s3_bucket_file_keys s3 bucket_name prefix)) ->
     exists contents objs,
       py_get response "Contents" (PyList []) = Return contents
       /\ py_iter contents = Return objs
       /\ (exists obj, In obj objs /\ py_get obj "Key" PyNone = Return (PyStr key))
       /\ py_endswith (PyStr key) "/" = Return false
       /\ ((forall obj k, In obj objs ->
                          py_get obj "Key" PyNone = Return (PyStr k) ->
                          String.prefix prefix k = true) ->
           String.prefix prefix key = true))
  /\ (forall (objs : list pyval) (keys : list string),
        py_get response "Contents" (PyList []) = Return (PyList objs) ->
        List.map (fun obj => py_get obj "Key" PyNone) objs
        = List.map (fun k => Return (PyStr k)) keys ->
        list_s3_bucket_file_keys s3 bucket_name prefix
        = mkgen (List.filter
                   (fun k => negb (ends_with (list_ascii_of_string k)
                                             (list_ascii_of_string "/")))
                   keys) None).
Proof.
  intros Hresp. unfold list_s3_bucket_file_keys. rewrite Hresp. simpl. split.
  - intros key.
    destruct (py_get response "Contents" (PyList [])) as [contents|e];
      simpl; [|contradiction].
    destruct (py_iter contents) as [objs|e] eqn:Hiter; simpl; [|contradiction].
    intros H. destruct (keys_loop_sound _ _ H) as [(obj & Hobj & Hkey) Hend].
    exists contents, objs.
    split; [reflexivity|]. split; [exact Hiter|].
    split; [exists obj; auto|]. split; [exact Hend|].
    intros Hall. exact (Hall obj key Hobj Hkey).
  - intros objs keys -> Hkeys. simpl. now apply keys_loop_complete.
Qed.

End Listing.

Lemma list_s3_bucket_file_keys_spec_witness :
  list_objects_v2 Ref.s3 BUCKET_NAME FILE_PREFIX = Return Ref.listing
  /\ list_s3_bucket_file_keys Ref.s3 BUCKET_NAME FILE_PREFIX
     = mkgen ["2023-02-18/small-files/black.json.gz";
              "2023-02-18/small-files/blue.json.gz";
              "2023-02-18/small-files/gray.json.gz"]%string None.
Proof.
  split; [reflexivity|].
  destruct (@list_s3_bucket_file_keys_spec Ref.services Ref.s3 BUCKET_NAME
              FILE_PREFIX Ref.listing eq_refl) as [_ H].
  exact (H _ ["2023-02-18/small-files/";
              "2023-02-18/small-files/black.json.gz";
              "2023-02-18/small-files/blue.json.gz";
              "2023-02-18/small-files/gray.json.gz"]%string eq_refl eq_refl).
Defined.

(** ** The pipeline and the loops *)

Section Stages.
Context {A B : Type}.

Lemma map_yield (f : A -> res B) (x : A) (g : gen A) :
  Seq.map f (yield x g) = (y <~ f x ;; yield y (Seq.map f g)).
Proof. reflexivity. Qed.

Lemma map_cons (f : A -> res B) (x : A) (l : list A) (o : option exn) :
  Seq.map f (mkgen (x :: l) o) = (y <~ f x ;; yield y (Seq.map f (mkgen l o))).
Proof. reflexivity. Qed.

Lemma filter_yield (p : A -> res bool) (x : A) (g : gen A) :
  Seq.filter p (yield x g) =
  (keep <~ p x ;;
   if keep : bool then yield x (Seq.filter p g) else Seq.filter p g).
Proof. reflexivity. Qed.

Lemma to_list_yield (x : A) (g : gen A) :
  Seq.to_list (yield x g) = (l <- Seq.to_list g ;; Return (x :: l)).
Proof.
  unfold Seq.to_list. simpl. now destruct (stop g).
Qed.

Lemma yield_from_nil (g : gen A) : yield_from [] g = g.
Proof. now destruct g. Qed.

Lemma yield_from_cons (x : A) (l : list A) (g : gen A) :
  yield_from (x :: l) g = yield x (yield_from l g).
Proof. reflexivity. Qed.

End Stages.

Section Equivalence.
Context {S : Services}.
Variable s3 : s3_client.

Local Abbreviation records := pipeline_records.
Local Abbreviation documents := (pipeline_documents s3).
Local Abbreviation inner := loop_inner.
Local Abbreviation outer := (loop_outer s3).

(** The records of one file, then those of the files that follow. *)
Lemma records_of_items (items : list pyval) (g : gen pyval)
      (result : list ColourId.t) :
  (l <- Seq.to_list (records (yield_from items g)) ;; Return (result ++ l)) =
  (result' <- for_gen (mkgen items None) inner result ;;
   l <- Seq.to_list (records g) ;; Return (result' ++ l)).
Proof.
  revert result. induction items as [|x items IH]; intros result.
  - now rewrite yield_from_nil.
  - rewrite yield_from_cons. unfold pipeline_records at 1.
    rewrite map_yield. unfold for_gen. simpl. unfold loop_inner at 1.
    destruct (create_colour_from_json x) as [colour|e]; simpl; [|reflexivity].
    rewrite filter_yield.
    destruct (is_colour_reddish colour) as [[]|e]; simpl; [| |reflexivity].
    + rewrite filter_yield.
      destruct (is_colour_muted colour) as [[]|e]; simpl; [| |reflexivity].
      * rewrite to_list_yield. fold (pipeline_records (yield_from items g)).
        specialize (IH (result ++ [colour])). unfold for_gen in IH. simpl in IH.
        rewrite <- IH.
        destruct (Seq.to_list (records (yield_from items g))); simpl;
          [|reflexivity].
        now rewrite <- app_assoc.
      * fold (pipeline_records (yield_from items g)). apply IH.
    + fold (pipeline_records (yield_from items g)). apply IH.
Qed.

Lemma not_iterable_no_record (x : pyval) :
  is_iterable x = false ->
  py_iter x = Raise TypeError /\ create_colour_from_json x = Raise TypeError.
Proof.
  destruct x; simpl; intros H; try discriminate; now split.
Qed.

Lemma iterable_items (x : pyval) :
  is_iterable x = true -> exists items, py_iter x = Return items.
Proof.
  destruct x; simpl; intros H; try discriminate; eauto.
Qed.

(** The loop over any generator of keys collects what the pipeline over
    it lists, and raises what it raises. *)
Lemma loop_pipeline (keys : list string) (o : option exn)
      (result : list ColourId.t) :
  for_gen (mkgen keys o) outer result =
  (l <- Seq.to_list (records (documents (mkgen keys o))) ;; Return (result ++ l)).
Proof.
  revert result. induction keys as [|k keys IH]; intros result.
  - unfold for_gen, pipeline_documents, pipeline_records, Seq.to_list. simpl.
    destruct o; simpl; [reflexivity|now rewrite app_nil_r].
  - unfold for_gen. simpl. fold (for_gen (mkgen keys o) outer).
    unfold pipeline_documents. rewrite map_cons. unfold loop_outer at 1.
    destruct (download_s3_file s3 BUCKET_NAME k) as [content|e]; simpl;
      [|reflexivity].
    rewrite map_yield.
    destruct (gzip_decompress content) as [decompressed|e]; simpl; [|reflexivity].
    rewrite map_yield.
    destruct (json_loads decompressed) as [json_data|e]; simpl; [|reflexivity].
    fold (pipeline_documents s3 (mkgen keys o)).
    change (Seq.flatten (yield json_data ?g)) with
      (if is_iterable json_data
       then items <~ py_iter json_data ;; yield_from items (Seq.flatten g)
       else yield json_data (Seq.flatten g)).
    fold (pipeline_documents s3 (mkgen keys o)).
    destruct (is_iterable json_data) eqn:Hit.
    + destruct (iterable_items _ Hit) as [items Hitems].
      unfold for_in. rewrite Hitems. simpl.
      rewrite records_of_items.
      destruct (for_gen (mkgen items None) inner result) as [result'|e]; simpl;
        [apply IH|reflexivity].
    + destruct (not_iterable_no_record _ Hit) as [Hiter Hcreate].
      unfold for_in. rewrite Hiter. simpl.
      unfold pipeline_records. rewrite map_yield, Hcreate. reflexivity.
Qed.

(** C9.  Whatever the listing and the objects of the bucket are, and
    whatever the services do with their contents, the [seq] pipeline and
    the nested [for] loops end in the same way: with the same list of
    records in the same order, or raising the same exception. *)
Theorem result_pipeline_loop : result_pipeline s3 = result_loop s3.
Proof.
  unfold result_pipeline, result_loop, Seq.seq.
  destruct (list_s3_bucket_file_keys s3 BUCKET_NAME FILE_PREFIX) as [keys o].
  change (Seq.to_list (records (documents (mkgen keys o)))
          = for_gen (mkgen keys o) outer []).
  rewrite loop_pipeline.
  now destruct (Seq.to_list (records (documents (mkgen keys o)))).
Qed.

End Equivalence.

End ReaderFacts.

(** * Facts about the scraper *)

Module ScraperFacts.

Import Re Spec RecordSpec Scraper ExtractFacts.

Lemma digit_value_range (c : ascii) :
  is_digit c = true -> (0 <= digit_value c <= 9)%Z.
Proof.
  unfold is_digit, between, digit_value. intros H.
  apply andb_true_iff in H as [H1 H2].
  apply N.leb_le in H1, H2. lia.
Qed.

(** One to three digits spell an integer from 0 to 999. *)
Lemma decimal_range (d : list ascii) :
  digit_group d -> (0 <= decimal d < 1000)%Z.
Proof.
  intros [Hd Ld]. unfold decimal.
  destruct d as [|a [|b [|c [|x d]]]];
    cbn [forallb fold_left List.length] in *; try lia;
    repeat match goal with
      | H : _ && _ = true |- _ => apply andb_true_iff in H as [? H]
      end;
    repeat match goal with
      | H : is_digit _ = true |- _ => apply digit_value_range in H
      end;
    lia.
Qed.

Lemma extract_rgb_range (text : string) (r g b : Z) :
  extract_rgb_colour text = Return (Some (r, g, b)) ->
  (0 <= r < 1000)%Z /\ (0 <= g < 1000)%Z /\ (0 <= b < 1000)%Z.
Proof.
  intros H.
  destruct (extract_rgb_some_first _ H)
    as (pre & w & post & _ & (d1 & d2 & d3 & Hw & _ & -> & -> & ->) & _).
  destruct (rgb_groups Hw) as (D1 & D2 & D3).
  auto using decimal_range.
Qed.

Lemma extract_hex_valid (text h : string) :
  extract_hex_colour text = Return (Some h) -> is_hex_colour_string h.
Proof.
  intros H. now destruct (extract_hex_some_first _ H) as (pre & post & _ & Hh & _).
Qed.

Section Main.
Context {S : Services}.
Variable fetch_paragraphs : string -> res (list paragraph).
Variable rng : Type.
Variable uuid4 : rng -> string * rng.

Lemma download_colour_data_valid (base_colour url : string) :
  Forall (scraped_colour base_colour 1000)
         (yielded (download_colour_data fetch_paragraphs base_colour url)).
Proof.
  unfold download_colour_data.
  destruct (fetch_paragraphs url) as [paragraphs|e]; simpl; [|constructor].
  induction paragraphs as [|p ps IH]; simpl; [constructor|].
  destruct (strong p) as [name|]; [|exact IH].
  destruct (extract_hex_colour (p_text p)) as [hex|e] eqn:Hhex; simpl;
    [|constructor].
  destruct (extract_rgb_colour (p_text p)) as [rgb|e] eqn:Hrgb; simpl;
    [|constructor].
  destruct hex as [h|]; [|exact IH].
  destruct rgb as [[[r g] b]|]; [|exact IH].
  simpl. constructor; [|exact IH].
  exists name, h, r, g, b. split; [reflexivity|].
  split; [exact (extract_hex_valid _ Hhex)|exact (extract_rgb_range _ Hrgb)].
Qed.

Lemma add_ids_valid (f : string) (g : gen Colour.t) (r : rng) :
  Forall (scraped_colour f 1000) (yielded g) ->
  Forall (scraped f 1000) (yielded (fst (Seq.map_st (add_id_to_colour uuid4) g r))).
Proof.
  unfold Seq.map_st. destruct g as [l o]. simpl. revert r.
  induction l as [|c l IH]; intros r H; simpl; [constructor|].
  inversion H as [|? ? Hc Hl]; subst.
  unfold add_id_to_colour at 1. destruct (uuid4 r) as [i r1].
  specialize (IH r1 Hl).
  match goal with
  | |- context [let '(_, _) := ?X in _] => destruct X as [rest r2] eqn:E
  end.
  simpl in *. constructor; [|exact IH].
  destruct Hc as (n & h & cr & cg & cb & -> & Hh & Hr & Hg & Hb).
  exists i, n, h, cr, cg, cb. repeat split; auto; lia.
Qed.

Lemma map_toJSON (g : gen ColourId.t) :
  Seq.map (fun c => Return (ColourId.toJSON c)) g
  = mkgen (List.map ColourId.toJSON (yielded g)) (stop g).
Proof.
  unfold Seq.map. destruct g as [l o]. simpl.
  induction l as [|c l IH]; simpl; [reflexivity|]. now rewrite IH.
Qed.

(** C2, as the code has it.  Every colour [download_colour_data] yields
    holds a name, its family, a hex string that is ['#'] and six
    hexadecimal digits, and a tuple of three integers from 0 to 999: a
    paragraph without a hex string or an RGB triple yields nothing.  A
    turn of the main loop that ends normally leaves the files as they
    were, or saves under the family's name the JSON of a list of records
    that hold such values and a string identifier. *)
Theorem persisted_records_valid (colour : string) (w w' : world rng) :
  Forall (scraped_colour colour 1000)
         (yielded (download_colour_data fetch_paragraphs colour
                     (create_colours_url colour)))
  /\ (process_colour fetch_paragraphs uuid4 colour w = Return w' ->
      disk w' = disk w
      \/ exists records : list ColourId.t,
           Forall (scraped colour 1000) records
           /\ disk w' =
              save_to_json_gz_file ("./small-files/" ++ colour ++ ".json.gz")
                (PyList (List.map ColourId.toJSON records)) (disk w)).
Proof.
  split; [apply download_colour_data_valid|].
  unfold process_colour, Seq.seq.
  pose proof (@add_ids_valid colour _ (random w)
                (download_colour_data_valid colour (create_colours_url colour)))
    as Hvalid.
  destruct (Seq.map_st (add_id_to_colour uuid4)
              (download_colour_data fetch_paragraphs colour
                 (create_colours_url colour)) (random w)) as [with_ids r'].
  simpl in Hvalid. rewrite map_toJSON. unfold Seq.to_list. simpl.
  destruct (stop with_ids); simpl; [discriminate|].
  destruct (Nat.eqb _ 0); intros H; injection H as <-; simpl.
  - now left.
  - right. exists (yielded with_ids). split; [exact Hvalid|reflexivity].
Qed.

End Main.

Lemma persisted_records_valid_witness :
  process_colour Ref.fetch_paragraphs Ref.uuid4 "red" Ref.empty_world
  = Return {| random := 2;
              disk := [("./small-files/red.json.gz"%string,
                        gzip_compress
                          (utf8_encode
                             (json_dumps
                                (PyList [ColourId.toJSON Ref.carmine;
                                         ColourId.toJSON Ref.overblue]) 2)))] |}
  /\ (disk {| random := 2;
              disk := [("./small-files/red.json.gz"%string,
                        gzip_compress
                          (utf8_encode
                             (json_dumps
                                (PyList [ColourId.toJSON Ref.carmine;
                                         ColourId.toJSON Ref.overblue]) 2)))] |}
      = disk Ref.empty_world
      \/ exists records : list ColourId.t,
           Forall (scraped "red" 1000) records
           /\ disk {| random := 2;
                      disk := [("./small-files/red.json.gz"%string,
                                gzip_compress
                                  (utf8_encode
                                     (json_dumps
                                        (PyList [ColourId.toJSON Ref.carmine;
                                                 ColourId.toJSON Ref.overblue]) 2)))] |}
              = save_to_json_gz_file "./small-files/red.json.gz"
                  (PyList (List.map ColourId.toJSON records))
                  (disk Ref.empty_world)).
Proof.
  split; [vm_compute; reflexivity|].
  apply (proj2 (@persisted_records_valid Ref.services Ref.fetch_paragraphs nat
                  Ref.uuid4 "red"%string Ref.empty_world _)).
  vm_compute. reflexivity.
Defined.

(** C2, as the specification words it, fails on a page that gives a blue
    channel of 342: the paragraph has a hex string and an RGB triple, so
    its colour is yielded and its record saved, and the channel is above
    255. *)
Lemma persisted_channel_above_255 :
  yielded (download_colour_data Ref.fetch_paragraphs "red"
             (create_colours_url "red"))
  = [Colour.make (PyStr "Carmine") (PyStr "red") (PyStr "#960018")
                 (PyTuple [PyInt 150; PyInt 0; PyInt 24]);
     Colour.make (PyStr "Overblue") (PyStr "red") (PyStr "#0102FF")
                 (PyTuple [PyInt 1; PyInt 2; PyInt 342])]
  /\ process_colour Ref.fetch_paragraphs Ref.uuid4 "red" Ref.empty_world
     = Return {| random := 2;
                 disk := save_to_json_gz_file "./small-files/red.json.gz"
                           (PyList [ColourId.toJSON Ref.carmine;
                                    ColourId.toJSON Ref.overblue]) [] |}
  /\ ColourId.rgb Ref.overblue = PyTuple [PyInt 1; PyInt 2; PyInt 342]
  /\ (255 < 342)%Z.
Proof.
  split; [vm_compute; reflexivity|].
  split; [vm_compute; reflexivity|].
  split; [reflexivity|lia].
Qed.

End ScraperFacts.

(** * Saving records and reading them back *)

Module RoundTripFacts.

Import RecordSpec Scraper Reader.

Lemma ref_services_laws : ServicesLaws Ref.services.
Proof.
  split; intros; reflexivity.
Qed.

Lemma lookup_dict_set {A : Type} (d : list (string * A)) (k : string) (v : A) :
  lookup k (dict_set d k v) = Some v.
Proof.
  induction d as [|[k' v'] d IH]; simpl.
  - now rewrite String.eqb_refl.
  - destruct (String.eqb k k') eqn:E; simpl; rewrite E; [reflexivity|exact IH].
Qed.

(** A plain record goes through JSON with its tuple turned into a list. *)
Lemma plain_through_json (c : ColourId.t) :
  is_plain c ->
  json_decode (json_encode (ColourId.toJSON c)) = ColourId.toJSON (as_read c).
Proof.
  intros (i & n & f & h & r & g & b & ->). reflexivity.
Qed.

Lemma plain_list_through_json (cs : list ColourId.t) :
  Forall is_plain cs ->
  List.map json_decode (List.map json_encode (List.map ColourId.toJSON cs))
  = List.map (fun c => ColourId.toJSON (as_read c)) cs.
Proof.
  induction 1 as [|c cs Hc _ IH]; simpl; [reflexivity|].
  now rewrite IH, <- (plain_through_json Hc).
Qed.

Lemma create_from_toJSON (c : ColourId.t) :
  create_colour_from_json (ColourId.toJSON c) = Return c.
Proof.
  now destruct c.
Qed.

Lemma create_all (cs : list ColourId.t) (o : option exn) :
  Seq.map create_colour_from_json
    (mkgen (List.map (fun c => ColourId.toJSON (as_read c)) cs) o)
  = mkgen (List.map as_read cs) o.
Proof.
  induction cs as [|c cs IH]; [reflexivity|].
  cbn [List.map]. rewrite ReaderFacts.map_cons, create_from_toJSON.
  cbn [gen_try]. now rewrite IH.
Qed.

Section RoundTrip.
Context {S : Services} {L : ServicesLaws S}.

Lemma read_saved (cs : list ColourId.t) :
  Forall is_plain cs ->
  read_colours
    (gzip_compress
       (utf8_encode (json_dumps (PyList (List.map ColourId.toJSON cs)) 2)))
  = Return (List.map as_read cs).
Proof.
  intros Hcs. unfold read_colours, Seq.seq, json_dumps.
  rewrite ReaderFacts.map_cons, gzip_decompress_compress. simpl.
  rewrite ReaderFacts.map_yield. unfold json_loads at 1.
  rewrite json_parse_format. simpl.
  rewrite (plain_list_through_json Hcs).
  unfold Seq.flatten at 1. simpl. unfold yield_from. simpl.
  rewrite app_nil_r, create_all. reflexivity.
Qed.

(** C4, as the code has it.  Records of four strings and a tuple of three
    integers, saved with [save_to_json_gz_file] and read back from the
    file through [gzip.decompress], [json.loads] and
    [create_colour_from_json], come back in the same order with the same
    [id], [name], [base] and [hex], and with [rgb] the list of the three
    integers the tuple held. *)
Theorem save_then_read (cs : list ColourId.t) (file_name : string)
        (fs : list (string * bytes)) :
  Forall is_plain cs ->
  (content <-
     read_binary_file
       (save_to_json_gz_file file_name (PyList (List.map ColourId.toJSON cs)) fs)
       file_name ;;
   read_colours content)
  = Return (List.map as_read cs)
  /\ Forall (fun c =>
               ColourId.id (as_read c) = ColourId.id c
               /\ ColourId.name (as_read c) = ColourId.name c
               /\ ColourId.base (as_read c) = ColourId.base c
               /\ ColourId.hex (as_read c) = ColourId.hex c
               /\ exists r g b,
                    ColourId.rgb c = PyTuple [PyInt r; PyInt g; PyInt b]
                    /\ ColourId.rgb (as_read c) = PyList [PyInt r; PyInt g; PyInt b])
            cs.
Proof.
  intros Hcs. split.
  - unfold read_binary_file, save_to_json_gz_file.
    rewrite lookup_dict_set. simpl. now apply read_saved.
  - apply Forall_forall. intros c Hc.
    rewrite Forall_forall in Hcs.
    destruct (Hcs c Hc) as (i & n & f & h & r & g & b & ->).
    simpl. repeat (split; [reflexivity|]). exists r, g, b. now split.
Qed.

End RoundTrip.

#[local] Existing Instance Ref.services.

Lemma save_then_read_witness :
  Forall is_plain [Ref.carmine; Ref.overblue]
  /\ (content <-
        read_binary_file
          (save_to_json_gz_file "./small-files/red.json.gz"
             (PyList (List.map ColourId.toJSON [Ref.carmine; Ref.overblue])) [])
          "./small-files/red.json.gz" ;;
      read_colours content)
     = Return (List.map as_read [Ref.carmine; Ref.overblue]).
Proof.
  assert (H : Forall is_plain [Ref.carmine; Ref.overblue]).
  { repeat constructor; do 7 eexists; reflexivity. }
  split; [exact H|].
  exact (proj1 (@save_then_read Ref.services ref_services_laws
                  [Ref.carmine; Ref.overblue] "./small-files/red.json.gz"%string
                  [] H)).
Defined.

(** C4, as the specification words it, fails on the [rgb] field: the
    record read back holds the list [[150, 0, 24]] where the record saved
    holds the tuple [(150, 0, 24)], and the two are not equal, for Rocq
    and for Python's [==]. *)
Lemma read_back_rgb_is_a_list :
  (content <-
     read_binary_file
       (save_to_json_gz_file "./small-files/red.json.gz"
          (PyList [ColourId.toJSON Ref.carmine]) [])
       "./small-files/red.json.gz" ;;
   read_colours content)
  = Return [ColourId.make (PyStr "uuid-0") (PyStr "Carmine") (PyStr "red")
                          (PyStr "#960018")
                          (PyList [PyInt 150; PyInt 0; PyInt 24])]
  /\ ColourId.rgb Ref.carmine = PyTuple [PyInt 150; PyInt 0; PyInt 24]
  /\ py_eq (PyList [PyInt 150; PyInt 0; PyInt 24]) (ColourId.rgb Ref.carmine)
     = false
  /\ ColourId.make (PyStr "uuid-0") (PyStr "Carmine") (PyStr "red")
                   (PyStr "#960018") (PyList [PyInt 150; PyInt 0; PyInt 24])
     <> Ref.carmine.
Proof.
  split; [vm_compute; reflexivity|].
  split; [reflexivity|]. split; [reflexivity|]. discriminate.
Qed.

End RoundTripFacts.

(** * More facts about the reader *)

Module ReaderMoreFacts.

Import Reader RecordSpec MoreSpec.
Local Open Scope string_scope.

(** ** Building a record *)

Lemma getitem_str_dict (d : list (string * pyval)) (k : string) (x : pyval) :
  getitem_str (PyDict d) k = Return x <-> lookup k d = Some x.
Proof.
  simpl. destruct (lookup k d); split; intros H; congruence.
Qed.

Lemma getitem_str_missing (d : list (string * pyval)) (k : string) :
  lookup k d = None -> getitem_str (PyDict d) k = Raise KeyError.
Proof.
  simpl. now intros ->.
Qed.

(** X1.  [create_colour_from_json] returns a record exactly on a dict that
    holds the five keys, and the record holds their values, whatever else
    the dict holds; on a dict that lacks one of the five it raises
    KeyError, and on a value that is not a dict TypeError. *)
Theorem create_colour_from_json_spec (data : pyval) :
  (forall c : ColourId.t,
     create_colour_from_json data = Return c <->
     exists d,
       data = PyDict d
       /\ lookup "id" d = Some (ColourId.id c)
       /\ lookup "name" d = Some (ColourId.name c)
       /\ lookup "base" d = Some (ColourId.base c)
       /\ lookup "hex" d = Some (ColourId.hex c)
       /\ lookup "rgb" d = Some (ColourId.rgb c))
  /\ (forall d k,
        data = PyDict d -> In k ["id"; "name"; "base"; "hex"; "rgb"] ->
        lookup k d = None ->
        create_colour_from_json data = Raise KeyError)
  /\ ((forall d, data <> PyDict d) ->
      create_colour_from_json data = Raise TypeError).
Proof.
  split; [|split].
  - intros c. split.
    + unfold create_colour_from_json. destruct data; simpl; try discriminate.
      destruct (lookup "id" items) as [i|] eqn:Hi; simpl; [|discriminate].
      destruct (lookup "name" items) as [n|] eqn:Hn; simpl; [|discriminate].
      destruct (lookup "base" items) as [b|] eqn:Hb; simpl; [|discriminate].
      destruct (lookup "hex" items) as [h|] eqn:Hh; simpl; [|discriminate].
      destruct (lookup "rgb" items) as [r|] eqn:Hr; simpl; [|discriminate].
      intros H. injection H as <-. exists items. simpl.
      split; [reflexivity|]. auto.
    + intros (d & -> & Hi & Hn & Hb & Hh & Hr).
      unfold create_colour_from_json. simpl.
      rewrite Hi, Hn, Hb, Hh, Hr. simpl. now destruct c.
  - intros d k -> Hk Hnone. unfold create_colour_from_json. simpl.
    destruct (lookup "id" d) eqn:Hi; simpl; [|reflexivity].
    destruct (lookup "name" d) eqn:Hn; simpl; [|reflexivity].
    destruct (lookup "base" d) eqn:Hb; simpl; [|reflexivity].
    destruct (lookup "hex" d) eqn:Hh; simpl; [|reflexivity].
    destruct (lookup "rgb" d) eqn:Hr; simpl; [|reflexivity].
    exfalso. simpl in Hk.
    destruct Hk as [<-|[<-|[<-|[<-|[<-|[]]]]]]; congruence.
  - intros Hnot. destruct data; try reflexivity.
    exfalso. now apply (Hnot items).
Qed.

(** X2.  The dict [toJSON] builds of a record is read back by
    [create_colour_from_json] as that record; and the dict of a record
    built from some data agrees with the data on the five keys. *)
Theorem create_colour_from_json_toJSON (c : ColourId.t) :
  create_colour_from_json (ColourId.toJSON c) = Return c
  /\ forall data k,
       create_colour_from_json data = Return c ->
       In k ["id"; "name"; "base"; "hex"; "rgb"] ->
       getitem_str (ColourId.toJSON c) k = getitem_str data k.
Proof.
  split; [now destruct c|].
  intros data k H Hk.
  unfold create_colour_from_json in H. destruct data; simpl in H; try discriminate.
  destruct (lookup "id" items) as [i|] eqn:Hi; simpl in H; [|discriminate].
  destruct (lookup "name" items) as [n|] eqn:Hn; simpl in H; [|discriminate].
  destruct (lookup "base" items) as [b|] eqn:Hb; simpl in H; [|discriminate].
  destruct (lookup "hex" items) as [h|] eqn:Hh; simpl in H; [|discriminate].
  destruct (lookup "rgb" items) as [r|] eqn:Hr; simpl in H; [|discriminate].
  injection H as <-. simpl in Hk.
  destruct Hk as [<-|[<-|[<-|[<-|[<-|[]]]]]]; simpl;
    rewrite ?Hi, ?Hn, ?Hb, ?Hh, ?Hr; reflexivity.
Qed.

(** ** The predicates on channel sequences of any length *)

(** X3.  [is_colour_reddish] looks at the blue channel only when red is
    greater than green: with fewer than two channels it raises IndexError;
    with red not greater than green it returns false, even when there is
    no blue channel; otherwise it raises IndexError without a blue channel
    and compares red with blue with one.  Channels after the third are
    ignored. *)
Theorem is_colour_reddish_any_length (c : ColourId.t) (l : list Z) :
  holds_integers c l ->
  is_colour_reddish c =
  match l with
  | r :: g :: rest =>
      if (g <? r)%Z
      then match rest with
           | b :: _ => Return (b <? r)%Z
           | [] => Raise IndexError
           end
      else Return false
  | _ => Raise IndexError
  end.
Proof.
  unfold is_colour_reddish.
  intros [-> | ->]; destruct l as [|r [|g [|b rest]]]; simpl; try reflexivity;
    destruct (g <? r)%Z; reflexivity.
Qed.

Lemma is_colour_reddish_any_length_witness :
  holds_integers
    (ColourId.make PyNone PyNone PyNone PyNone (PyList [PyInt 3; PyInt 7]))
    [3; 7]%Z
  /\ is_colour_reddish
       (ColourId.make PyNone PyNone PyNone PyNone (PyList [PyInt 3; PyInt 7]))
     = Return false.
Proof.
  split; [left; reflexivity|].
  apply (@is_colour_reddish_any_length
           (ColourId.make PyNone PyNone PyNone PyNone (PyList [PyInt 3; PyInt 7]))
           [3; 7]%Z).
  left. reflexivity.
Defined.

(** X4.  [is_colour_muted] stops at the first channel that is 128 or
    more and returns false there, whatever follows or is missing; when it
    runs out of channels before the third it raises IndexError.  Channels
    after the third are ignored. *)
Theorem is_colour_muted_any_length (c : ColourId.t) (l : list Z) :
  holds_integers c l ->
  is_colour_muted c =
  match l with
  | [] => Raise IndexError
  | r :: rest =>
      if (r <? 128)%Z
      then match rest with
           | [] => Raise IndexError
           | g :: rest' =>
               if (g <? 128)%Z
               then match rest' with
                    | [] => Raise IndexError
                    | b :: _ => Return (b <? 128)%Z
                    end
               else Return false
           end
      else Return false
  end.
Proof.
  unfold is_colour_muted.
  intros [-> | ->]; destruct l as [|r [|g [|b rest]]]; simpl; try reflexivity;
    destruct (r <? 128)%Z; simpl; try reflexivity;
    destruct (g <? 128)%Z; reflexivity.
Qed.

Lemma is_colour_muted_any_length_witness :
  holds_integers
    (ColourId.make PyNone PyNone PyNone PyNone (PyTuple [PyInt 200]))
    [200]%Z
  /\ is_colour_muted
       (ColourId.make PyNone PyNone PyNone PyNone (PyTuple [PyInt 200]))
     = Return false.
Proof.
  split; [right; reflexivity|].
  apply (@is_colour_muted_any_length
           (ColourId.make PyNone PyNone PyNone PyNone (PyTuple [PyInt 200]))
           [200]%Z).
  right. reflexivity.
Defined.

(** ** What the stages pass on *)

Section StageMembers.
Context {A B : Type}.

Lemma in_map_stage (f : A -> res B) (g : gen A) (y : B) :
  In y (yielded (Seq.map f g)) -> exists x, In x (yielded g) /\ f x = Return y.
Proof.
  unfold Seq.map. destruct g as [l o]. simpl.
  induction l as [|a l IH]; simpl; [contradiction|].
  destruct (f a) as [b|e] eqn:E; simpl; [|contradiction].
  intros [<-|H]; [exists a; auto|].
  destruct (IH H) as (x & Hx & Hfx). exists x. auto.
Qed.

Lemma in_filter_stage (p : A -> res bool) (g : gen A) (x : A) :
  In x (yielded (Seq.filter p g)) -> In x (yielded g) /\ p x = Return true.
Proof.
  unfold Seq.filter. destruct g as [l o]. simpl.
  induction l as [|a l IH]; simpl; [contradiction|].
  destruct (p a) as [[]|e] eqn:E; simpl; [| |contradiction].
  - intros [<-|H]; [auto|]. destruct (IH H). auto.
  - intros H. destruct (IH H). auto.
Qed.

End StageMembers.

Lemma in_flatten_stage (g : gen pyval) (y : pyval) :
  In y (yielded (Seq.flatten g)) ->
  exists x, In x (yielded g)
            /\ ((exists items, py_iter x = Return items /\ In y items)
                \/ (is_iterable x = false /\ y = x)).
Proof.
  unfold Seq.flatten. destruct g as [l o]. simpl.
  induction l as [|a l IH]; simpl; [contradiction|].
  destruct (is_iterable a) eqn:Hit.
  - destruct (py_iter a) as [items|e] eqn:E; simpl; [|contradiction].
    intros H. apply in_app_or in H as [H|H].
    + exists a. split; [now left|]. left. now exists items.
    + destruct (IH H) as (x & Hx & Hcase). exists x. auto.
  - simpl. intros [<-|H].
    + exists a. split; [now left|]. right. auto.
    + destruct (IH H) as (x & Hx & Hcase). exists x. auto.
Qed.

Section Pipeline.
Context {S : Services}.
Variable s3 : s3_client.

(** X5.  Every record the second data pipeline returns passes both
    filters, and was built from an item of the parsed, decompressed
    content of a key the listing generator yielded. *)
Theorem result_pipeline_records (l : list ColourId.t) :
  result_pipeline s3 = Return l ->
  forall c, In c l ->
    is_colour_reddish c = Return true
    /\ is_colour_muted c = Return true
    /\ exists key content decompressed json_data items item,
         In key (yielded (list_s3_bucket_file_keys s3 BUCKET_NAME FILE_PREFIX))
         /\ download_s3_file s3 BUCKET_NAME key = Return content
         /\ gzip_decompress content = Return decompressed
         /\ json_loads decompressed = Return json_data
         /\ py_iter json_data = Return items
         /\ In item items
         /\ create_colour_from_json item = Return c.
Proof.
  unfold result_pipeline, Seq.seq, Seq.to_list.
  match goal with
  | |- match stop ?g with _ => _ end = _ -> _ => set (final := g)
  end.
  destruct (stop final); [discriminate|].
  intros H c Hc. injection H as <-. subst final.
  apply in_filter_stage in Hc as [Hc Hmuted].
  apply in_filter_stage in Hc as [Hc Hreddish].
  apply in_map_stage in Hc as (item & Hitem & Hcreate).
  apply in_flatten_stage in Hitem as (json_data & Hdoc & Hcase).
  apply in_map_stage in Hdoc as (decompressed & Hdec & Hloads).
  apply in_map_stage in Hdec as (content & Hcontent & Hgunzip).
  apply in_map_stage in Hcontent as (key & Hkey & Hdown).
  split; [exact Hreddish|]. split; [exact Hmuted|].
  destruct Hcase as [(items & Hiter & Hin)|[Hnot ->]].
  - exists key, content, decompressed, json_data, items, item. auto 10.
  - exfalso. destruct (ReaderFacts.not_iterable_no_record _ Hnot) as [_ Hraise].
    congruence.
Qed.

Lemma for_gen_cons {A St : Type} (x : A) (xs : list A) (o : option exn)
      (body : A -> St -> res St) (s : St) :
  for_gen (mkgen (x :: xs) o) body s
  = (s' <- body x s ;; for_gen (mkgen xs o) body s').
Proof. reflexivity. Qed.

Lemma bind_return {A : Type} (x : res A) : (a <- x ;; Return a) = x.
Proof. now destruct x. Qed.

Lemma loop_outer_from (key : string) (result : list ColourId.t) :
  loop_outer s3 key result
  = (l <- file_records s3 key ;; Return (result ++ l)%list).
Proof.
  unfold file_records. rewrite <- ReaderFacts.loop_pipeline.
  rewrite for_gen_cons. unfold for_gen. simpl. now rewrite bind_return.
Qed.

Lemma loop_over_keys (ks : list string) (o : option exn)
      (result : list ColourId.t) :
  for_gen (mkgen ks o) (loop_outer s3) result
  = (l <- (l <- collect (List.map (file_records s3) ks) ;;
           match o with None => Return l | Some e => Raise e end) ;;
     Return (result ++ l)%list).
Proof.
  revert result. induction ks as [|k ks IH]; intros result.
  - unfold for_gen. simpl. destruct o; simpl; [reflexivity|].
    now rewrite app_nil_r.
  - rewrite for_gen_cons, loop_outer_from. cbn [List.map collect].
    destruct (file_records s3 k) as [l1|e]; simpl; [|reflexivity].
    rewrite IH.
    destruct (collect (List.map (file_records s3) ks)) as [l2|e]; simpl;
      [|reflexivity].
    destruct o; simpl; [reflexivity|]. now rewrite app_assoc.
Qed.

(** X6.  The second data pipeline over a listing is the pipeline over
    each listed key on its own, in the order of the listing: it returns
    their lists put end to end, and raises the first exception met, that
    of a file before that of the listing. *)
Theorem result_pipeline_by_key (ks : list string) (o : option exn) :
  list_s3_bucket_file_keys s3 BUCKET_NAME FILE_PREFIX = mkgen ks o ->
  result_pipeline s3
  = (l <- collect (List.map (file_records s3) ks) ;;
     match o with None => Return l | Some e => Raise e end).
Proof.
  intros Hkeys. unfold result_pipeline, Seq.seq. rewrite Hkeys.
  change (Seq.to_list (pipeline_records (pipeline_documents s3 (mkgen ks o)))
          = (l <- collect (List.map (file_records s3) ks) ;;
             match o with None => Return l | Some e => Raise e end)).
  pose proof (ReaderFacts.loop_pipeline s3 ks o []) as H1.
  pose proof (loop_over_keys ks o []) as H2.
  rewrite H1 in H2. simpl in H2.
  rewrite !bind_return in H2. exact H2.
Qed.

End Pipeline.

#[local] Existing Instance Ref.services.

Lemma result_pipeline_records_witness :
  result_pipeline RefBucket.s3 = Return [as_read Ref.asphalt]
  /\ is_colour_reddish (as_read Ref.asphalt) = Return true
  /\ is_colour_muted (as_read Ref.asphalt) = Return true.
Proof.
  assert (H : result_pipeline RefBucket.s3 = Return [as_read Ref.asphalt])
    by (vm_compute; reflexivity).
  split; [exact H|].
  destruct (@result_pipeline_records Ref.services RefBucket.s3 _ H
              (as_read Ref.asphalt) (or_introl eq_refl)) as (Hr & Hm & _).
  now split.
Defined.

Lemma result_pipeline_by_key_witness :
  list_s3_bucket_file_keys RefBucket.s3 BUCKET_NAME FILE_PREFIX
  = mkgen [RefBucket.black_key] None
  /\ result_pipeline RefBucket.s3
     = (l <- collect [file_records RefBucket.s3 RefBucket.black_key] ;;
        Return l).
Proof.
  assert (H : list_s3_bucket_file_keys RefBucket.s3 BUCKET_NAME FILE_PREFIX
              = mkgen [RefBucket.black_key] None) by reflexivity.
  split; [exact H|].
  exact (@result_pipeline_by_key Ref.services RefBucket.s3
           [RefBucket.black_key] None H).
Defined.

(** ** The listing at its edges *)

Section ListingEdges.
Context {S : Services}.

Lemma keys_loop_until_keyless (objs1 objs2 : list pyval) (obj : pyval)
      (keys1 : list string) :
  List.map (fun o => py_get o "Key" PyNone) objs1
  = List.map (fun k => Return (PyStr k)) keys1 ->
  py_get obj "Key" PyNone = Return PyNone ->
  list_keys_loop (objs1 ++ obj :: objs2)
  = mkgen (List.filter
             (fun k => negb (ends_with (list_ascii_of_string k)
                                       (list_ascii_of_string "/")))
             keys1) (Some AttributeError).
Proof.
  intros Hkeys Hobj. revert keys1 Hkeys.
  induction objs1 as [|o objs1 IH]; intros [|k keys1] H; simpl in H;
    try discriminate.
  - simpl. now rewrite Hobj.
  - injection H as Hk H. cbn [app list_keys_loop]. rewrite Hk. simpl.
    rewrite (IH keys1 H). destruct (ends_with _ _); reflexivity.
Qed.

(** X7.  When the listing call raises, [list_s3_bucket_file_keys] raises
    the same exception and yields nothing; on a response without
    ["Contents"] it yields nothing and stops; at the first object without
    a ["Key"] it raises AttributeError, after yielding the keys before it
    that do not end in ["/"]. *)
Theorem list_s3_bucket_file_keys_edges
        (s3 : s3_client) (bucket_name prefix : string) :
  (forall e, list_objects_v2 s3 bucket_name prefix = Raise e ->
             list_s3_bucket_file_keys s3 bucket_name prefix = raising e)
  /\ (forall d, list_objects_v2 s3 bucket_name prefix = Return (PyDict d) ->
                lookup "Contents" d = None ->
                list_s3_bucket_file_keys s3 bucket_name prefix = exhausted)
  /\ (forall response objs1 obj objs2 keys1,
        list_objects_v2 s3 bucket_name prefix = Return response ->
        py_get response "Contents" (PyList [])
        = Return (PyList (objs1 ++ obj :: objs2)) ->
        List.map (fun o => py_get o "Key" PyNone) objs1
        = List.map (fun k => Return (PyStr k)) keys1 ->
        py_get obj "Key" PyNone = Return PyNone ->
        list_s3_bucket_file_keys s3 bucket_name prefix
        = mkgen (List.filter
                   (fun k => negb (ends_with (list_ascii_of_string k)
                                             (list_ascii_of_string "/")))
                   keys1) (Some AttributeError)).
Proof.
  unfold list_s3_bucket_file_keys. split; [|split].
  - now intros e ->.
  - intros d -> Hnone. simpl. now rewrite Hnone.
  - intros response objs1 obj objs2 keys1 -> Hcontents Hkeys Hobj. simpl.
    rewrite Hcontents. simpl. now apply keys_loop_until_keyless.
Qed.

End ListingEdges.

End ReaderMoreFacts.

(** * More facts about the scraper *)

Module ScraperMoreFacts.

Import Re Spec RecordSpec MoreSpec Scraper ExtractFacts.

Lemma lookup_dict_set_cases {A : Type} (d : list (string * A)) (k k' : string)
      (v : A) :
  lookup k (dict_set d k' v) = if String.eqb k k' then Some v else lookup k d.
Proof.
  induction d as [|[k0 v0] d IH]; simpl.
  - destruct (String.eqb k k'); reflexivity.
  - destruct (String.eqb k' k0) eqn:E0; simpl.
    + apply String.eqb_eq in E0. subst k0.
      destruct (String.eqb k k'); reflexivity.
    + rewrite IH. destruct (String.eqb k k0) eqn:E1; [|reflexivity].
      apply String.eqb_eq in E1. subst k0.
      rewrite String.eqb_sym in E0. now rewrite E0.
Qed.

Section Main.
Context {S : Services}.
Variable fetch_paragraphs : string -> res (list paragraph).
Variable rng : Type.
Variable uuid4 : rng -> string * rng.

(** X8.  When the page cannot be fetched [download_colour_data] raises
    the same exception and yields nothing.  When it can, the generator
    never raises, and the colours it yields are exactly those of the
    paragraphs that have a [strong] element and in whose text both
    extractors find a match: the name, the hex string and the channels of
    a colour all come from one paragraph. *)
Theorem download_colour_data_members (base_colour url : string) :
  (forall e, fetch_paragraphs url = Raise e ->
             download_colour_data fetch_paragraphs base_colour url = raising e)
  /\ (forall ps,
        fetch_paragraphs url = Return ps ->
        stop (download_colour_data fetch_paragraphs base_colour url) = None
        /\ forall c : Colour.t,
             In c (yielded (download_colour_data fetch_paragraphs base_colour url))
             <->
             exists p n h r g b,
               In p ps /\ strong p = Some n
               /\ extract_hex_colour (p_text p) = Return (Some h)
               /\ extract_rgb_colour (p_text p) = Return (Some (r, g, b))
               /\ c = Colour.make (PyStr n) (PyStr base_colour) (PyStr h)
                                  (PyTuple [PyInt r; PyInt g; PyInt b])).
Proof.
  unfold download_colour_data. split.
  - now intros e ->.
  - intros ps ->. simpl.
    induction ps as [|p ps [IHstop IHin]]; simpl.
    + split; [reflexivity|]. intros c. split; [contradiction|].
      intros (p & n & h & r & g & b & Hp & _). exact Hp.
    + destruct (strong p) as [name|] eqn:Hname.
      2:{ split; [exact IHstop|]. intros c. rewrite IHin. split.
          - intros (q & n & h & r & g & b & Hq & Hrest).
            exists q, n, h, r, g, b. auto.
          - intros (q & n & h & r & g & b & [<-|Hq] & Hn & Hrest);
              [congruence|].
            exists q, n, h, r, g, b. auto. }
      destruct (extract_hex_total (p_text p)) as [hex Hhex].
      destruct (extract_rgb_total (p_text p)) as [rgb Hrgb].
      rewrite Hhex, Hrgb. simpl.
      assert (Hskip :
        (hex = None \/ rgb = None) ->
        forall c,
          (exists q n h r g b,
             In q ps /\ strong q = Some n
             /\ extract_hex_colour (p_text q) = Return (Some h)
             /\ extract_rgb_colour (p_text q) = Return (Some (r, g, b))
             /\ c = Colour.make (PyStr n) (PyStr base_colour) (PyStr h)
                                (PyTuple [PyInt r; PyInt g; PyInt b]))
          <->
          (exists q n h r g b,
             (p = q \/ In q ps) /\ strong q = Some n
             /\ extract_hex_colour (p_text q) = Return (Some h)
             /\ extract_rgb_colour (p_text q) = Return (Some (r, g, b))
             /\ c = Colour.make (PyStr n) (PyStr base_colour) (PyStr h)
                                (PyTuple [PyInt r; PyInt g; PyInt b]))).
      { intros Hnone c. split.
        - intros (q & n & h & r & g & b & Hq & Hrest).
          exists q, n, h, r, g, b. auto.
        - intros (q & n & h & r & g & b & [<-|Hq] & Hn & Hh & Hr & Hc).
          + destruct Hnone as [-> | ->]; congruence.
          + exists q, n, h, r, g, b. auto. }
      destruct hex as [h|];
        [|split; [exact IHstop|]; intros c; rewrite IHin; apply Hskip; auto].
      destruct rgb as [[[r g] b]|];
        [|split; [exact IHstop|]; intros c; rewrite IHin; apply Hskip; auto].
      simpl. split; [exact IHstop|]. intros c. split.
      * intros [<-|Hc].
        -- exists p, name, h, r, g, b. auto 10.
        -- apply IHin in Hc as (q & n' & h' & r' & g' & b' & Hq & Hrest).
           exists q, n', h', r', g', b'. auto.
      * intros (q & n' & h' & r' & g' & b' & [<-|Hq] & Hn & Hh & Hr & ->).
        -- left. congruence.
        -- right. apply IHin. exists q, n', h', r', g', b'. auto.
Qed.

Lemma map_st_cons {A B St : Type} (f : A -> St -> B * St) (x : A) (l : list A)
      (o : option exn) (s : St) :
  Seq.map_st f (mkgen (x :: l) o) s
  = (let '(y, s1) := f x s in
     let '(rest, s2) := Seq.map_st f (mkgen l o) s1 in (yield y rest, s2)).
Proof. reflexivity. Qed.

(** X9.  The identifiers given to the colours of a generator are the
    successive draws from the random source, one draw for each colour, in
    the order the colours are yielded; the other four fields are those of
    the colours, and the generator stops as its source does. *)
Theorem ids_are_successive_draws (g : gen Colour.t) (r : rng) :
  List.map ColourId.id (yielded (fst (Seq.map_st (add_id_to_colour uuid4) g r)))
  = List.map PyStr (fst (draws uuid4 r (List.length (yielded g))))
  /\ snd (Seq.map_st (add_id_to_colour uuid4) g r)
     = snd (draws uuid4 r (List.length (yielded g)))
  /\ List.map (fun c => (ColourId.name c, ColourId.base c,
                         ColourId.hex c, ColourId.rgb c))
              (yielded (fst (Seq.map_st (add_id_to_colour uuid4) g r)))
     = List.map (fun c => (Colour.name c, Colour.base c,
                           Colour.hex c, Colour.rgb c))
                (yielded g)
  /\ stop (fst (Seq.map_st (add_id_to_colour uuid4) g r)) = stop g.
Proof.
  destruct g as [l o]. cbn [yielded stop]. revert r.
  induction l as [|c l IH]; intros r.
  - repeat split.
  - rewrite map_st_cons. cbn [List.length draws].
    unfold add_id_to_colour at 1 3 5 7. destruct (uuid4 r) as [i r1].
    destruct (IH r1) as (H1 & H2 & H3 & H4).
    destruct (Seq.map_st (add_id_to_colour uuid4) (mkgen l o) r1) as [rest r2].
    destruct (draws uuid4 r1 (List.length l)) as [ids r3].
    simpl in *. subst. rewrite H1, H3. repeat split.
Qed.

Lemma download_stops (base_colour url : string) (ps : list paragraph) :
  fetch_paragraphs url = Return ps ->
  stop (download_colour_data fetch_paragraphs base_colour url) = None.
Proof.
  unfold download_colour_data. intros ->. simpl.
  induction ps as [|p ps IH]; simpl; [reflexivity|].
  destruct (strong p); [|exact IH].
  destruct (extract_hex_total (p_text p)) as [hex ->].
  destruct (extract_rgb_total (p_text p)) as [rgb ->]. simpl.
  destruct hex; [|exact IH]. destruct rgb as [[[r g] b]|]; [|exact IH].
  exact IH.
Qed.

(** What a turn of the main loop does to the disk. *)
Lemma process_colour_step (colour : string) (w w' : world rng) :
  process_colour fetch_paragraphs uuid4 colour w = Return w' ->
  disk w' = disk w
  \/ exists records : list ColourId.t,
       records <> []
       /\ Forall (scraped colour 1000) records
       /\ disk w' = dict_set (disk w) (family_file colour) (stored records).
Proof.
  unfold process_colour, Seq.seq.
  pose proof (@ScraperFacts.add_ids_valid rng uuid4 colour _ (random w)
                (ScraperFacts.download_colour_data_valid fetch_paragraphs
                   colour (create_colours_url colour)))
    as Hvalid.
  destruct (Seq.map_st (add_id_to_colour uuid4)
              (download_colour_data fetch_paragraphs colour
                 (create_colours_url colour)) (random w)) as [with_ids r'].
  simpl in Hvalid. rewrite ScraperFacts.map_toJSON. unfold Seq.to_list. simpl.
  destruct (stop with_ids); simpl; [discriminate|].
  destruct (yielded with_ids) as [|c cs] eqn:E; simpl;
    intros H; injection H as <-; simpl.
  - now left.
  - right. exists (c :: cs). split; [discriminate|]. split; [exact Hvalid|].
    reflexivity.
Qed.

(** X10.  A turn of the main loop raises what the fetch of the page
    raises.  On a page that gives no colour it returns the world as it
    was: no file is written and no identifier is drawn.  When it ends
    normally, every file but the one named after the family reads as it
    did before. *)
Theorem process_colour_edges (colour : string) (w : world rng) :
  (forall e, fetch_paragraphs (create_colours_url colour) = Raise e ->
             process_colour fetch_paragraphs uuid4 colour w = Raise e)
  /\ (forall ps,
        fetch_paragraphs (create_colours_url colour) = Return ps ->
        yielded (download_colour_data fetch_paragraphs colour
                   (create_colours_url colour)) = [] ->
        process_colour fetch_paragraphs uuid4 colour w = Return w)
  /\ (forall w' name,
        process_colour fetch_paragraphs uuid4 colour w = Return w' ->
        name <> family_file colour ->
        lookup name (disk w') = lookup name (disk w)).
Proof.
  split; [|split].
  - intros e He. unfold process_colour, download_colour_data, Seq.seq.
    rewrite He. reflexivity.
  - intros ps Hps Hnone. pose proof (download_stops colour Hps) as Hstop.
    unfold process_colour, Seq.seq.
    destruct (download_colour_data fetch_paragraphs colour
                (create_colours_url colour)) as [l o].
    simpl in Hnone, Hstop. subst l o. simpl. now destruct w.
  - intros w' name H Hname.
    destruct (process_colour_step _ _ H) as [-> | (records & _ & _ & ->)];
      [reflexivity|].
    rewrite lookup_dict_set_cases.
    destruct (String.eqb name (family_file colour)) eqn:E; [|reflexivity].
    apply String.eqb_eq in E. contradiction.
Qed.

Lemma main_over (names : list string) :
  forall w w' : world rng,
    for_gen (mkgen names None) (process_colour fetch_paragraphs uuid4) w
    = Return w' ->
    forall name content,
      lookup name (disk w') = Some content ->
      lookup name (disk w) = Some content
      \/ exists colour records,
           In colour names /\ name = family_file colour /\ records <> []
           /\ Forall (scraped colour 1000) records
           /\ content = stored records.
Proof.
  induction names as [|c names IH]; intros w w' H name content Hlook.
  - unfold for_gen in H. simpl in H. injection H as <-. now left.
  - unfold for_gen in H. simpl in H.
    destruct (process_colour fetch_paragraphs uuid4 c w) as [w1|e] eqn:Hstep;
      simpl in H; [|discriminate].
    destruct (IH w1 w' H name content Hlook)
      as [Hold | (colour & records & Hin & Hrest)].
    + destruct (process_colour_step _ _ Hstep)
        as [Hsame | (records & Hne & Hvalid & Hdisk)].
      * left. now rewrite <- Hsame.
      * rewrite Hdisk, lookup_dict_set_cases in Hold.
        destruct (String.eqb name (family_file c)) eqn:E; [|now left].
        apply String.eqb_eq in E. injection Hold as <-.
        right. exists c, records. simpl. auto.
    + right. exists colour, records. simpl. auto.
Qed.

(** X11.  After a run of the main loop that ends normally, every file of
    the disk holds what it held before, or is named after one of the nine
    colour families and holds the JSON of a list, not empty, of records of
    that family with a valid hex string and channels from 0 to 999. *)
Theorem main_files (w w' : world rng) :
  main fetch_paragraphs uuid4 w = Return w' ->
  forall name content,
    lookup name (disk w') = Some content ->
    lookup name (disk w) = Some content
    \/ exists colour records,
         In colour colour_names /\ name = family_file colour /\ records <> []
         /\ Forall (scraped colour 1000) records
         /\ content = stored records.
Proof.
  unfold main. apply main_over.
Qed.

End Main.

Lemma main_files_witness :
  exists w' : world nat,
    main Ref.fetch_paragraphs Ref.uuid4 Ref.empty_world = Return w'
    /\ forall name content,
         lookup name (disk w') = Some content ->
         lookup name (disk Ref.empty_world) = Some content
         \/ exists colour records,
              In colour colour_names /\ name = family_file colour
              /\ records <> []
              /\ Forall (scraped colour 1000) records
              /\ content = stored records.
Proof.
  destruct (main Ref.fetch_paragraphs Ref.uuid4 Ref.empty_world) as [w'|e] eqn:E.
  - exists w'. split; [reflexivity|].
    exact (@main_files Ref.services Ref.fetch_paragraphs nat Ref.uuid4
             Ref.empty_world w' E).
  - vm_compute in E. discriminate E.
Defined.

Section Files.
Context {S : Services}.


End Files.

End ScraperMoreFacts.

(** * Facts about the rest of the notebooks *)

Module NotebookFacts.

Import Reader RecordSpec MoreSpec Notebook.
Local Open Scope string_scope.



Section LocalFiles.
Context {S : Services} {L : ServicesLaws S}.



End LocalFiles.

#[local] Existing Instance Ref.services.


(** ** The traditional approach *)

Section Traditional.
Context {S : Services}.
Variable s3 : s3_client.

Lemma print_reddish_lines (entries : list pyval) (next : gen line) :
  (forall e,
     In (Entry e) (yielded (print_reddish entries next)) ->
     (exists rgb r0 r1 r2,
        getitem_str e "rgb" = Return rgb
        /\ getitem_int rgb 0 = Return r0 /\ getitem_int rgb 1 = Return r1
        /\ getitem_int rgb 2 = Return r2
        /\ py_gt r0 r1 = Return true /\ py_gt r0 r2 = Return true)
     \/ In (Entry e) (yielded next))
  /\ (forall k,
        In (Downloading k) (yielded (print_reddish entries next)) ->
        In (Downloading k) (yielded next)).
Proof.
  induction entries as [|x entries [IHe IHk]]; simpl.
  - split; auto.
  - destruct (getitem_str x "rgb") as [rgb|e0] eqn:Hrgb; simpl;
      [|split; intros; contradiction].
    destruct (getitem_int rgb 0) as [r0|e0] eqn:H0; simpl;
      [|split; intros; contradiction].
    destruct (getitem_int rgb 1) as [r1|e0] eqn:H1; simpl;
      [|split; intros; contradiction].
    destruct (py_gt r0 r1) as [[]|e0] eqn:Hc1; simpl;
      [| |split; intros; contradiction].
    + destruct (getitem_int rgb 2) as [r2|e0] eqn:H2; simpl;
        [|split; intros; contradiction].
      destruct (py_gt r0 r2) as [[]|e0] eqn:Hc2; simpl;
        [| |split; intros; contradiction].
      * split.
        -- intros e [Heq|H]; [|now apply IHe].
           injection Heq as <-. left. exists rgb, r0, r1, r2. auto 10.
        -- intros k [Heq|H]; [discriminate|now apply IHk].
      * split; assumption.
    + split; assumption.
Qed.

Lemma traditional_loop_lines (bucket_name : string) (objs : list pyval) :
  (forall e,
     In (Entry e) (yielded (traditional_loop s3 bucket_name objs)) ->
     exists rgb r0 r1 r2,
       getitem_str e "rgb" = Return rgb
       /\ getitem_int rgb 0 = Return r0 /\ getitem_int rgb 1 = Return r1
       /\ getitem_int rgb 2 = Return r2
       /\ py_gt r0 r1 = Return true /\ py_gt r0 r2 = Return true)
  /\ (forall k,
        In (Downloading k) (yielded (traditional_loop s3 bucket_name objs)) ->
        In k (yielded (list_keys_loop objs))).
Proof.
  induction objs as [|obj rest [IHe IHk]]; simpl.
  - split; intros; contradiction.
  - destruct (py_get obj "Key" PyNone) as [key|e0]; simpl;
      [|split; intros; contradiction].
    destruct (py_endswith key "/") as [[]|e0]; simpl;
      [split; assumption| |split; intros; contradiction].
    destruct key; simpl; try (split; intros; contradiction).
    destruct (get_object_body s3 bucket_name s) as [content|e0]; simpl.
    2:{ split; [intros e [H|[]]; discriminate|].
        intros k [H|[]]. injection H as <-. now left. }
    destruct (gzip_decompress content) as [decompressed|e0]; simpl.
    2:{ split; [intros e [H|[]]; discriminate|].
        intros k [H|[]]. injection H as <-. now left. }
    destruct (json_loads decompressed) as [json_data|e0]; simpl.
    2:{ split; [intros e [H|[]]; discriminate|].
        intros k [H|[]]. injection H as <-. now left. }
    destruct (py_iter json_data) as [entries|e0]; simpl.
    2:{ split; [intros e [H|[]]; discriminate|].
        intros k [H|[]]. injection H as <-. now left. }
    destruct (print_reddish_lines entries (traditional_loop s3 bucket_name rest))
      as [Pe Pk].
    split.
    + intros e [H|H]; [discriminate|].
      destruct (Pe e H) as [Hred|Hnext]; [exact Hred|now apply IHe].
    + intros k [H|H]; [injection H as <-; now left|].
      right. apply IHk. now apply Pk.
Qed.

(** X14.  Every entry [traditional_approach] prints has an ["rgb"] value
    whose first item is greater than its second and than its third, and
    every key it announces a download of is a key that
    [list_s3_bucket_file_keys] yields for the same bucket and prefix: it
    never downloads a key that ends in ["/"]. *)
Theorem traditional_approach_lines (bucket_name prefix : string) :
  (forall e,
     In (Entry e) (yielded (traditional_approach s3 bucket_name prefix)) ->
     exists rgb r0 r1 r2,
       getitem_str e "rgb" = Return rgb
       /\ getitem_int rgb 0 = Return r0 /\ getitem_int rgb 1 = Return r1
       /\ getitem_int rgb 2 = Return r2
       /\ py_gt r0 r1 = Return true /\ py_gt r0 r2 = Return true)
  /\ (forall k,
        In (Downloading k) (yielded (traditional_approach s3 bucket_name prefix)) ->
        In k (yielded (list_s3_bucket_file_keys s3 bucket_name prefix))
        /\ py_endswith (PyStr k) "/" = Return false).
Proof.
  unfold traditional_approach, list_s3_bucket_file_keys.
  destruct (list_objects_v2 s3 bucket_name prefix) as [response|e0]; simpl;
    [|split; intros; contradiction].
  destruct (py_get response "Contents" (PyList [])) as [contents|e0]; simpl;
    [|split; intros; contradiction].
  destruct (py_iter contents) as [objs|e0]; simpl;
    [|split; intros; contradiction].
  destruct (traditional_loop_lines bucket_name objs) as [He Hk].
  split; [exact He|].
  intros k H. pose proof (Hk k H) as Hin. split; [exact Hin|].
  now destruct (ReaderFacts.keys_loop_sound _ _ Hin).
Qed.

End Traditional.

(** ** The traditional approach and the loop it was improved into *)

Section Improved.
Context {S : Services}.
Variable s3 : s3_client.

Local Abbreviation kept entries :=
  (Seq.to_list
     (Seq.filter is_colour_muted
        (Seq.map create_colour_from_json (mkgen entries None)))).

Lemma kept_cons (x : pyval) (entries : list pyval) :
  kept (x :: entries)
  = (c <- create_colour_from_json x ;;
     muted <- is_colour_muted c ;;
     l <- kept entries ;;
     Return (if muted : bool then c :: l else l)).
Proof.
  rewrite ReaderFacts.map_cons.
  destruct (create_colour_from_json x) as [c|e]; simpl; [|reflexivity].
  rewrite ReaderFacts.filter_yield.
  destruct (is_colour_muted c) as [[]|e]; simpl; [| |reflexivity].
  - rewrite ReaderFacts.to_list_yield. reflexivity.
  - now destruct (Seq.to_list _).
Qed.

Lemma kept_app (a b : list pyval) :
  kept (a ++ b) = (l1 <- kept a ;; l2 <- kept b ;; Return (l1 ++ l2)%list).
Proof.
  induction a as [|x a IH].
  - simpl app. change (kept []) with (@Return (list ColourId.t) []). simpl.
    now destruct (kept b).
  - simpl app. rewrite !kept_cons.
    destruct (create_colour_from_json x) as [c|e]; simpl; [|reflexivity].
    destruct (is_colour_muted c) as [m|e]; simpl; [|reflexivity].
    rewrite IH. destruct (kept a) as [l1|e]; simpl; [|reflexivity].
    destruct (kept b) as [l2|e]; simpl; [|reflexivity].
    now destruct m.
Qed.

Lemma entries_of_app (a b : list line) :
  entries_of (a ++ b) = (entries_of a ++ entries_of b)%list.
Proof.
  induction a as [|[k|e] a IH]; simpl; [reflexivity|exact IH|now rewrite IH].
Qed.

Lemma downloads_of_app (a b : list line) :
  downloads_of (a ++ b) = (downloads_of a ++ downloads_of b)%list.
Proof.
  induction a as [|[k|e] a IH]; simpl; [reflexivity|now rewrite IH|exact IH].
Qed.

Lemma entries_of_entries (l : list pyval) :
  entries_of (List.map Entry l) = l /\ downloads_of (List.map Entry l) = [].
Proof.
  induction l as [|x l [IH1 IH2]]; simpl; [now split|]. now rewrite IH1.
Qed.

Lemma created_has_rgb (x : pyval) (c : ColourId.t) :
  create_colour_from_json x = Return c ->
  getitem_str x "rgb" = Return (ColourId.rgb c).
Proof.
  unfold create_colour_from_json. destruct x; simpl; try discriminate.
  destruct (lookup "id" items); simpl; [|discriminate].
  destruct (lookup "name" items); simpl; [|discriminate].
  destruct (lookup "base" items); simpl; [|discriminate].
  destruct (lookup "hex" items); simpl; [|discriminate].
  destruct (lookup "rgb" items); simpl; [|discriminate].
  intros H. now injection H as <-.
Qed.

(** The inner loops, side by side. *)
Lemma inner_loops (items : list pyval) (next : gen line) :
  forall result result',
    for_gen (mkgen items None) loop_inner result = Return result' ->
    exists printed l,
      yielded (print_reddish items next)
      = (List.map Entry printed ++ yielded next)%list
      /\ stop (print_reddish items next) = stop next
      /\ kept printed = Return l
      /\ result' = (result ++ l)%list.
Proof.
  induction items as [|x items IH]; intros result result' H.
  - unfold for_gen in H. simpl in H. injection H as <-.
    exists [], []. simpl. now rewrite app_nil_r.
  - unfold for_gen in H. simpl in H. unfold loop_inner at 1 in H.
    destruct (create_colour_from_json x) as [c|e] eqn:Hc; simpl in H;
      [|discriminate].
    pose proof (created_has_rgb _ Hc) as Hrgb.
    cbn [print_reddish]. rewrite Hrgb. cbn [gen_try].
    change (r0 <- getitem_int (ColourId.rgb c) 0 ;;
            r1 <- getitem_int (ColourId.rgb c) 1 ;;
            c1 <- py_gt r0 r1 ;;
            (if c1 : bool
             then r2 <- getitem_int (ColourId.rgb c) 0 ;;
                  r3 <- getitem_int (ColourId.rgb c) 2 ;; py_gt r2 r3
             else Return false))
      with (is_colour_reddish c).
    destruct (is_colour_reddish c) as [[]|e] eqn:Hred; simpl in H;
      [| |discriminate]; cbn [gen_try].
    + destruct (is_colour_muted c) as [[]|e] eqn:Hmut; simpl in H;
        [| |discriminate];
        destruct (IH _ _ H) as (printed & l & Hy & Hs & Hk & ->);
        exists (x :: printed).
      * exists (c :: l). cbn [yield yielded stop List.map app].
        rewrite Hy, Hs, kept_cons, Hc. cbn [bind]. rewrite Hmut. cbn [bind].
        rewrite Hk. cbn [bind]. repeat split. now rewrite <- app_assoc.
      * exists l. cbn [yield yielded stop List.map app].
        rewrite Hy, Hs, kept_cons, Hc. cbn [bind]. rewrite Hmut. cbn [bind].
        rewrite Hk. cbn [bind]. repeat split.
    + destruct (IH _ _ H) as (printed & l & Hy & Hs & Hk & ->).
      exists printed, l. auto.
Qed.

Lemma for_gen_yield {A St : Type} (x : A) (g : gen A)
      (body : A -> St -> res St) (s : St) :
  for_gen (yield x g) body s = (s' <- body x s ;; for_gen g body s').
Proof. reflexivity. Qed.

(** The outer loops, side by side. *)
Lemma outer_loops (objs : list pyval) :
  forall result result',
    for_gen (list_keys_loop objs) (loop_outer s3) result = Return result' ->
    stop (traditional_loop s3 BUCKET_NAME objs) = None
    /\ downloads_of (yielded (traditional_loop s3 BUCKET_NAME objs))
       = yielded (list_keys_loop objs)
    /\ exists l,
         kept (entries_of (yielded (traditional_loop s3 BUCKET_NAME objs)))
         = Return l
         /\ result' = (result ++ l)%list.
Proof.
  induction objs as [|obj rest IH]; intros result result' H.
  - unfold for_gen in H. simpl in H. injection H as <-.
    simpl. split; [reflexivity|]. split; [reflexivity|].
    exists []. split; [reflexivity|]. now rewrite app_nil_r.
  - cbn [list_keys_loop traditional_loop] in *.
    destruct (py_get obj "Key" PyNone) as [key|e]; cbn [gen_try] in *;
      [|discriminate].
    destruct (py_endswith key "/") as [[]|e]; cbn [gen_try] in *;
      [now apply IH| |discriminate].
    destruct key; try discriminate.
    rewrite for_gen_yield in H. unfold loop_outer at 1 in H.
    unfold download_s3_file in H.
    destruct (get_object_body s3 BUCKET_NAME s) as [content|e];
      cbn [bind gen_try] in *; [|discriminate].
    destruct (gzip_decompress content) as [decompressed|e];
      cbn [bind gen_try] in *; [|discriminate].
    destruct (json_loads decompressed) as [json_data|e];
      cbn [bind gen_try] in *; [|discriminate].
    unfold for_in in H.
    destruct (py_iter json_data) as [items|e]; cbn [bind gen_try] in *;
      [|discriminate].
    destruct (for_gen (mkgen items None) loop_inner result) as [mid|e] eqn:Hin;
      cbn [bind] in H; [|discriminate].
    destruct (inner_loops items (traditional_loop s3 BUCKET_NAME rest) _ Hin)
      as (printed & l1 & Hy & Hs & Hk1 & ->).
    destruct (IH _ _ H) as (Hstop & Hdown & l2 & Hk2 & ->).
    cbn [yield yielded stop]. rewrite Hy, Hs.
    split; [exact Hstop|]. split.
    + cbn [downloads_of]. rewrite downloads_of_app.
      rewrite (proj2 (entries_of_entries printed)), Hdown. reflexivity.
    + exists (l1 ++ l2)%list. cbn [entries_of]. rewrite entries_of_app.
      rewrite (proj1 (entries_of_entries printed)), kept_app, Hk1, Hk2.
      cbn [bind]. split; [reflexivity|]. now rewrite app_assoc.
Qed.

(** X15.  When the improved imperative loop returns a list of records,
    [traditional_approach] on the same bucket ends normally, announces
    the download of exactly the keys the listing generator yields, in
    order, and the list returned is made of the records built from the
    entries it prints, in order, that are muted as well. *)
Theorem traditional_approach_improved (l : list ColourId.t) :
  result_loop s3 = Return l ->
  stop (traditional_approach s3 BUCKET_NAME FILE_PREFIX) = None
  /\ downloads_of (yielded (traditional_approach s3 BUCKET_NAME FILE_PREFIX))
     = yielded (list_s3_bucket_file_keys s3 BUCKET_NAME FILE_PREFIX)
  /\ Seq.to_list
       (Seq.filter is_colour_muted
          (Seq.map create_colour_from_json
             (mkgen (entries_of
                       (yielded (traditional_approach s3 BUCKET_NAME FILE_PREFIX)))
                    None)))
     = Return l.
Proof.
  unfold result_loop, traditional_approach, list_s3_bucket_file_keys.
  destruct (list_objects_v2 s3 BUCKET_NAME FILE_PREFIX) as [response|e];
    cbn [gen_try]; [|discriminate].
  destruct (py_get response "Contents" (PyList [])) as [contents|e];
    cbn [gen_try]; [|discriminate].
  destruct (py_iter contents) as [objs|e]; cbn [gen_try]; [|discriminate].
  intros H. change (for_gen (list_keys_loop objs) (loop_outer s3) [] = Return l) in H.
  destruct (outer_loops _ _ H) as (Hstop & Hdown & l' & Hk & ->).
  auto.
Qed.

End Improved.

Lemma traditional_approach_improved_witness :
  result_loop RefBucket.s3 = Return [as_read Ref.asphalt]
  /\ downloads_of (yielded (traditional_approach RefBucket.s3 BUCKET_NAME FILE_PREFIX))
     = [RefBucket.black_key]
  /\ entries_of (yielded (traditional_approach RefBucket.s3 BUCKET_NAME FILE_PREFIX))
     = [ColourId.toJSON (as_read Ref.asphalt)].
Proof.
  assert (H : result_loop RefBucket.s3 = Return [as_read Ref.asphalt])
    by (vm_compute; reflexivity).
  split; [exact H|].
  destruct (@traditional_approach_improved Ref.services RefBucket.s3 _ H)
    as (_ & Hdown & _).
  split; [rewrite Hdown|]; vm_compute; reflexivity.
Defined.

End NotebookFacts.

(** * More facts about the extractors and the addresses *)

Module ExtractMoreFacts.

Import Re Spec Scraper ExtractFacts.

(** X16.  A hex colour at the very start of a text is what
    [extract_hex_colour] returns, whatever follows it: a seventh
    hexadecimal digit after the six does not prevent the match, and is
    left out of the result. *)
Theorem extract_hex_colour_no_right_boundary (h post : string) :
  is_hex_colour_string h ->
  extract_hex_colour (h ++ post)%string = Return (Some h).
Proof.
  intros Hh. apply extract_hex_first_some with (pre := ""%string) (post := post).
  - reflexivity.
  - exact Hh.
  - intros. simpl. lia.
Qed.

Lemma extract_hex_colour_no_right_boundary_witness :
  is_hex_colour_string "#FFA500"
  /\ extract_hex_colour "#FFA5001234" = Return (Some "#FFA500"%string).
Proof.
  assert (H : is_hex_colour_string "#FFA500").
  { exists (list_ascii_of_string "FFA500"). repeat split. }
  split; [exact H|].
  exact (@extract_hex_colour_no_right_boundary "#FFA500" "1234" H).
Defined.

(** X17.  A last group of three digits is read as it is whatever
    follows it: a number of four digits or more in the last place is cut
    to its first three digits, silently. *)
Theorem extract_rgb_colour_cuts_last_group (d1 d2 d3 : list ascii) (post : string) :
  digit_group d1 -> digit_group d2 -> digit_group d3 -> List.length d3 = 3 ->
  extract_rgb_colour
    (string_of_list_ascii
       (list_ascii_of_string "rgb" ++ d1 ++ list_ascii_of_string "," ++ d2
        ++ list_ascii_of_string "," ++ d3) ++ post)%string
  = Return (Some (decimal d1, decimal d2, decimal d3)).
Proof.
  intros D1 D2 D3 L3.
  apply extract_rgb_first_some with (pre := ""%string) (post := post)
    (w := string_of_list_ascii
            (list_ascii_of_string "rgb" ++ d1 ++ list_ascii_of_string "," ++ d2
             ++ list_ascii_of_string "," ++ d3)).
  - reflexivity.
  - exists d1, d2, d3. rewrite list_ascii_of_string_of_list_ascii.
    split; [|auto].
    exists "r"%char, "g"%char, "b"%char, [], [], [].
    simpl. split; [reflexivity|]. repeat (split; [reflexivity|]). auto.
  - intros. simpl. lia.
Qed.

Lemma extract_rgb_colour_cuts_last_group_witness :
  (digit_group (list_ascii_of_string "1")
   /\ digit_group (list_ascii_of_string "2")
   /\ digit_group (list_ascii_of_string "345"))
  /\ extract_rgb_colour "rgb1,2,3456" = Return (Some (1, 2, 345)%Z).
Proof.
  assert (D1 : digit_group (list_ascii_of_string "1")) by (split; simpl; [reflexivity|lia]).
  assert (D2 : digit_group (list_ascii_of_string "2")) by (split; simpl; [reflexivity|lia]).
  assert (D3 : digit_group (list_ascii_of_string "345")) by (split; simpl; [reflexivity|lia]).
  split; [auto|].
  exact (@extract_rgb_colour_cuts_last_group
           (list_ascii_of_string "1") (list_ascii_of_string "2")
           (list_ascii_of_string "345") "6" D1 D2 D3 eq_refl).
Defined.

(** X18.  Two colour names have the same page address exactly when they
    are the same name, and the same file name exactly when they are the
    same name: no two families share a page or a file. *)
Theorem create_colours_url_injective (a b : string) :
  (create_colours_url a = create_colours_url b <-> a = b)
  /\ (MoreSpec.family_file a = MoreSpec.family_file b <-> a = b).
Proof.
  assert (Hcancel : forall pre suf : string,
             (pre ++ a ++ suf)%string = (pre ++ b ++ suf)%string -> a = b).
  { intros pre suf H. apply (f_equal list_ascii_of_string) in H.
    rewrite !chars_app in H. apply app_inv_head in H. apply app_inv_tail in H.
    now apply chars_inj. }
  split; (split; [apply Hcancel|now intros ->]).
Qed.

End ExtractMoreFacts.
